(** * Raya FFI: native extension modules and the host C API

    A shallow embedding of
      - [crates/raya-ffi/examples/crypto.cpp]  (native module "crypto"),
      - [crates/raya-ffi/examples/fs.cpp]      (native module "fs"),
      - [crates/raya-ffi/examples/hello.c]     (a host program),
      - [crates/raya-ffi/include/raya.h]       (host C API, declarations only),
    and the properties of the natural-language specification that concern
    them.

    Conventions of the embedding.
      - A [char] is an [ascii]; a C string pointer is the [string] of the bytes
        stored from the pointer on.  The C library reads such a buffer up to
        its first NUL, so [strlen], [strcmp] and the [std::string] constructor
        from a C string are written out over that prefix; the end of the Rocq
        string stands for the terminator when no NUL occurs before it.
      - [int], [int32_t], [uint8_t] and [size_t] values are [Z]; conversions
        that can lose bits are written out ([to_uint8], [to_int]).
      - [RayaValue** args, size_t argc] is the list [args]; [argc] is its
        length and [args[i]] is [arg args i].
      - A [for (i = 0; i < n; i++)] loop whose body neither breaks nor writes
        [i] or [n] is [for_upto n 0 body].
      - What a native function reaches outside of its arguments (OpenSSL, the
        random device, the file system, uninitialised stack bytes) is read
        from the [RayaContext] it is called with. *)

From Stdlib Require Import ZArith Ascii String List Lia Bool.
From stdpp Require Import base list strings gmap.

Local Open Scope Z_scope.

(** ** C strings *)

Module CStr.

Definition NUL : ascii := Ascii.zero.

Definition is_nul (c : ascii) : bool := Ascii.eqb c NUL.

(** [strlen p]: the number of chars before the first NUL. *)
Fixpoint strlen (p : string) : nat :=
  match p with
  | EmptyString => O
  | String c p' => if is_nul c then O else S (strlen p')
  end.

(** The chars before the first NUL: what [std::string(p)] holds and what
    any consumer of the C string [p] sees. *)
Fixpoint content (p : string) : string :=
  match p with
  | EmptyString => EmptyString
  | String c p' => if is_nul c then EmptyString else String c (content p')
  end.

(** [p[i]]; the terminator is read at the end of the Rocq string. *)
Definition at_ (p : string) (i : nat) : ascii :=
  match String.get i p with
  | Some c => c
  | None => NUL
  end.

(** [unsigned char] value of a [char]. *)
Definition to_uchar (c : ascii) : Z := Z.of_N (N_of_ascii c).

(** [strcmp]: negative, zero or positive. *)
Fixpoint strcmp (p q : string) : Z :=
  let c := match p with String c _ => c | EmptyString => NUL end in
  let d := match q with String d _ => d | EmptyString => NUL end in
  if negb (to_uchar c =? to_uchar d) then to_uchar c - to_uchar d
  else if is_nul c then 0
  else match p, q with
       | String _ p', String _ q' => strcmp p' q'
       | _, _ => 0
       end.

Definition no_nul (p : string) : Prop := content p = p.

End CStr.

(** ** Machine integers *)

Definition is_byte (z : Z) : Prop := 0 <= z < 256.

(** Conversion to [uint8_t]. *)
Definition to_uint8 (z : Z) : Z := z mod 256.

(** Conversion of a [size_t] (or any wider value) to [int]: the low 32 bits,
    read in two's complement. *)
Definition to_int (z : Z) : Z := (z + 2 ^ 31) mod 2 ^ 32 - 2 ^ 31.

(** [for (i = start; i < start + count; i++) st = body i st]. *)
Fixpoint for_upto {St : Type} (count : nat) (i : nat)
    (body : nat -> St -> St) (st : St) : St :=
  match count with
  | O => st
  | S count' => for_upto count' (S i) body (body i st)
  end.

(** ** Values and the marshaling layer *)

(** Modelled from the spec: [raya/module.h] is not part of the sources; the
    value kinds are those of the specification's data model (null, boolean,
    32-bit integer, string, array, object, error). *)
#[warnings="-register-all"]
Inductive RayaValue : Type :=
| VNull
| VBool (b : bool)
| VI32 (n : Z)
| VString (s : string)
| VArray (elems : list RayaValue)
| VObject (id : positive)
| VError (msg : string).

(** Outcomes of the external library calls of [fs_ops]. *)
Inductive ReadOutcome :=
| ReadNotOpen                      (* !file.is_open() *)
| ReadContent (content : string)   (* the whole file *)
| ReadThrows (what : string).      (* std::exception *)

Inductive WriteOutcome :=
| WriteNotOpen
| WriteFails                       (* file.fail() after << *)
| WriteDone
| WriteThrows (what : string).

Inductive EcOutcome :=
| EcError (message : string)       (* ec set *)
| EcDone (flag : bool)             (* the bool the call returned *)
| EcThrows (what : string).

Inductive ListOutcome :=
| ListEntries (names : list string)
| ListThrows (what : string).

(** The context of a native call, with the environment the call can reach. *)
Record RayaContext := {
  env_SHA256 : string -> nat -> Z;       (* digest byte i of the data *)
  env_SHA512 : string -> nat -> Z;
  env_random : nat -> Z;                 (* k-th draw of dis(gen) *)
  env_stack : nat -> ascii;              (* uninitialised stack bytes *)
  env_ifstream : string -> ReadOutcome;
  env_ofstream : string -> string -> WriteOutcome;
  env_exists : string -> bool;
  env_create_directories : string -> EcOutcome;
  env_remove : string -> EcOutcome;
  env_directory_iterator : string -> ListOutcome
}.

(** Modelled from the spec: the constructors and accessors of [raya/module.h]
    (section 4.2): an accessor returns its sentinel (null, 0, false) when the
    runtime type of the handle does not match. *)
Definition raya_value_to_string (v : RayaValue) : option string :=
  match v with VString s => Some s | _ => None end.

Definition raya_value_to_i32 (v : RayaValue) : Z :=
  match v with VI32 n => n | _ => 0 end.

Definition raya_value_to_bool (v : RayaValue) : Z :=
  match v with VBool true => 1 | _ => 0 end.

Definition raya_value_null (ctx : RayaContext) : RayaValue := VNull.

Definition raya_value_from_bool (ctx : RayaContext) (b : Z) : RayaValue :=
  VBool (negb (b =? 0)).

Definition raya_value_from_i32 (ctx : RayaContext) (n : Z) : RayaValue :=
  VI32 n.

Definition raya_value_from_string (ctx : RayaContext) (p : string) : RayaValue :=
  VString (CStr.content p).

Definition raya_error_new (ctx : RayaContext) (message : string) : RayaValue :=
  VError (CStr.content message).

Definition raya_array_new (ctx : RayaContext) (len : nat) : RayaValue :=
  VArray (replicate len VNull).

(** In-place update of a slot; anything else is left as it is. *)
Definition raya_array_set (array : RayaValue) (index : nat) (v : RayaValue)
    : RayaValue :=
  match array with
  | VArray elems => VArray (<[index := v]> elems)
  | _ => array
  end.

Definition arg (args : list RayaValue) (i : nat) : RayaValue :=
  nth i args VNull.

Definition argc (args : list RayaValue) : nat := length args.

(** The comparison [x == 0] and friends of C yield an [int]. *)
Definition c_bool (b : bool) : Z := if b then 1 else 0.

(** ** crypto.cpp *)

Definition SHA256_DIGEST_LENGTH : nat := 32.
Definition SHA512_DIGEST_LENGTH : nat := 64.

(** [unsigned char hash[n]] after [SHA*_Final(hash, ...)]. *)
Definition digest_buffer (digest : nat -> Z) (n : nat) : list Z :=
  map (fun i => to_uint8 (digest i)) (seq 0 n).

(** An uninitialised [char buf[n]] on the stack. *)
Definition stack_buffer (ctx : RayaContext) (n : nat) : list ascii :=
  map (env_stack ctx) (seq 0 n).

Definition hex_digit (d : Z) : ascii :=
  nth (Z.to_nat d) (list_ascii_of_string "0123456789abcdef") CStr.NUL.

(** [sprintf(buf + dst, "%02x", v)] for an [unsigned char] [v]: two digits
    and the terminator. *)
Definition sprintf_02x (buf : list ascii) (dst : nat) (v : Z) : list ascii :=
  <[(dst + 2)%nat := CStr.NUL]>
    (<[(dst + 1)%nat := hex_digit (v mod 16)]>
       (<[dst := hex_digit (v / 16)]> buf)).

(** The "Convert to hex string" block, the same in both branches of
    [native_hash] up to the digest length [n]:
    [char hex[n * 2 + 1]; for (i < n) sprintf(hex + (i * 2), ...);
     hex[n * 2] = 0]. *)
Definition hex_of_digest (ctx : RayaContext) (hash : list Z) (n : nat)
    : string :=
  let hex := stack_buffer ctx (n * 2 + 1) in
  let hex :=
    for_upto n 0 (fun i hex => sprintf_02x hex (i * 2) (nth i hash 0)) hex in
  let hex := <[(n * 2)%nat := CStr.NUL]> hex in
  string_of_list_ascii hex.

Definition native_hash (ctx : RayaContext) (args : list RayaValue)
    : RayaValue :=
  if negb (argc args =? 2)%nat then
    raya_error_new ctx "hash() requires 2 arguments"
  else
    match raya_value_to_string (arg args 0) with
    | None => raya_error_new ctx "First argument must be a string"
    | Some algorithm =>
      match raya_value_to_string (arg args 1) with
      | None => raya_error_new ctx "Second argument must be a string"
      | Some data =>
        if CStr.strcmp algorithm "sha256" =? 0 then
          let hash :=
            digest_buffer (env_SHA256 ctx (CStr.content data))
              SHA256_DIGEST_LENGTH in
          raya_value_from_string ctx
            (hex_of_digest ctx hash SHA256_DIGEST_LENGTH)
        else if CStr.strcmp algorithm "sha512" =? 0 then
          let hash :=
            digest_buffer (env_SHA512 ctx (CStr.content data))
              SHA512_DIGEST_LENGTH in
          raya_value_from_string ctx
            (hex_of_digest ctx hash SHA512_DIGEST_LENGTH)
        else
          let error := "Unsupported hash algorithm: " in
          let error := error +:+ CStr.content algorithm in
          let error := error +:+ " (supported: sha256, sha512)" in
          raya_error_new ctx error
      end
    end.

Definition native_random_bytes (ctx : RayaContext) (args : list RayaValue)
    : RayaValue :=
  if negb (argc args =? 1)%nat then
    raya_error_new ctx "randomBytes() requires 1 argument"
  else
    let len := raya_value_to_i32 (arg args 0) in
    if (len <=? 0) || (len >? 1024 * 1024) then
      raya_error_new ctx "Length must be between 1 and 1048576"
    else
      let n := Z.to_nat len in
      let bytes :=
        for_upto n 0
          (fun i bytes => <[i := to_uint8 (env_random ctx i)]> bytes)
          (replicate n 0) in
      let array := raya_array_new ctx n in
      for_upto n 0
        (fun i array =>
           raya_array_set array i (raya_value_from_i32 ctx (nth i bytes 0)))
        array.

(** What one iteration of the comparison loop reads from one input. *)
Inductive Access :=
| ReadAt (i : nat)     (* the char at position i *)
| Padding.             (* the constant 0 *)

(** The state of the comparison loop: [result], and the log of what each
    iteration read (left input, right input). *)
Record CmpState := {
  result : Z;
  reads : list (Access * Access)
}.

Definition access (len i : nat) : Access :=
  if (i <? len)%nat then ReadAt i else Padding.

(** The value read by an access; a [char] becomes a [uint8_t] modulo 256,
    whatever the signedness of [char]. *)
Definition fetch (p : string) (acc : Access) : Z :=
  match acc with
  | ReadAt i => CStr.to_uchar (CStr.at_ p i)
  | Padding => 0
  end.

Definition compare_step (a b : string) (len_a len_b : nat) (i : nat)
    (st : CmpState) : CmpState :=
  let byte_a := fetch a (access len_a i) in
  let byte_b := fetch b (access len_b i) in
  {| result := Z.lor (result st) (Z.lxor byte_a byte_b);
     reads := reads st ++ [(access len_a i, access len_b i)] |}.

(** Lines 170-184: the lengths, the loop and the length check. *)
Definition compare_loop (a b : string) : CmpState :=
  let len_a := CStr.strlen a in
  let len_b := CStr.strlen b in
  let max_len := if (len_b <? len_a)%nat then len_a else len_b in
  for_upto max_len 0 (compare_step a b len_a len_b)
    {| result := 0; reads := [] |}.

Definition native_constant_time_equal (ctx : RayaContext)
    (args : list RayaValue) : RayaValue :=
  if negb (argc args =? 2)%nat then
    raya_error_new ctx "constantTimeEqual() requires 2 arguments"
  else
    match raya_value_to_string (arg args 0),
          raya_value_to_string (arg args 1) with
    | Some a, Some b =>
      let len_a := CStr.strlen a in
      let len_b := CStr.strlen b in
      let st := compare_loop a b in
      let result :=
        to_int (Z.lor (result st)
                  (Z.lxor (Z.of_nat len_a) (Z.of_nat len_b))) in
      raya_value_from_bool ctx (c_bool (result =? 0))
    | _, _ => raya_error_new ctx "Both arguments must be strings"
    end.

(** *** The comparison, with its reads of memory

    The same lines 170-186 with the reads [a[i]] and [b[i]] made explicit.
    A computation that reads the inputs carries the log of its reads; a byte
    of an input is obtained by [Mem.load] and in no other way, and
    [Mem.load] is what writes the log. *)

Module Mem.

Inductive Input := InputA | InputB.

(** One read: which input, at which position. *)
Record Read := { read_from : Input; read_at : nat }.

Definition Reading (T : Type) : Type := list Read -> T * list Read.

Definition ret {T : Type} (x : T) : Reading T := fun log => (x, log).

Definition bind {T U : Type} (m : Reading T) (k : T -> Reading U)
    : Reading U :=
  fun log => let '(x, log') := m log in k x log'.


(** [for (i = start; i < start + count; i++) st = body i st], in
    [Reading]. *)
Fixpoint for_upto {St : Type} (count : nat) (i : nat)
    (body : nat -> St -> Reading St) (st : St) : Reading St :=
  match count with
  | O => ret st
  | S count' => bind (body i st) (for_upto count' (S i) body)
  end.

End Mem.




(** ** fs.cpp *)

(** [raya::TypeConverter<std::string>]. *)
Definition TypeConverter_string_from_raya (value : RayaValue) : string :=
  match raya_value_to_string value with
  | Some str => CStr.content str
  | None => ""
  end.

Definition TypeConverter_string_to_raya (ctx : RayaContext) (value : string)
    : RayaValue :=
  raya_value_from_string ctx value.

(** [raya::TypeConverter<bool>]. *)
Definition TypeConverter_bool_from_raya (value : RayaValue) : bool :=
  negb (raya_value_to_bool value =? 0).

Definition TypeConverter_bool_to_raya (ctx : RayaContext) (value : bool)
    : RayaValue :=
  raya_value_from_bool ctx (if value then 1 else 0).

(** [raya::error]. *)
Definition raya_error (ctx : RayaContext) (message : string) : RayaValue :=
  raya_error_new ctx message.

(** ** What a source file defines

    After preprocessing a file holds, for each native function it names,
    either a definition with a body or a declaration only. *)

Definition RayaNativeFunction : Type :=
  RayaContext -> list RayaValue -> RayaValue.

Inductive TopLevel :=
| Declared (symbol : string)
| Defined (symbol : string) (body : RayaNativeFunction).

(** fs.cpp, lines 241-242:
    [#define RAYA_FUNCTION(name, impl) RayaValue* native_##name(...)].
    The replacement list is the header of the function and does not mention
    [impl]: whatever is passed for it is dropped, and with the semicolon that
    follows each invocation the expansion is a declaration. *)
Definition RAYA_FUNCTION {Impl : Type} (name : string) (impl : Impl)
    : TopLevel :=
  Declared ("native_" +:+ name).

(** The body a file has for a symbol. *)
Fixpoint body_of (unit : list TopLevel) (symbol : string)
    : option RayaNativeFunction :=
  match unit with
  | [] => None
  | Declared _ :: unit' => body_of unit' symbol
  | Defined symbol' body :: unit' =>
    if String.eqb symbol' symbol then Some body else body_of unit' symbol
  end.

(** crypto.cpp writes its three native functions out. *)
Definition crypto_cpp : list TopLevel :=
  [ Defined "native_hash" native_hash;
    Defined "native_random_bytes" native_random_bytes;
    Defined "native_constant_time_equal" native_constant_time_equal ].

(** fs.cpp writes its six through [RAYA_FUNCTION] (lines 247-373);
    [impl name] is the text between the braces of the invocation for
    [name]. *)
Definition fs_cpp {Impl : Type} (impl : string -> Impl) : list TopLevel :=
  [ RAYA_FUNCTION "read_file" (impl "read_file");
    RAYA_FUNCTION "write_file" (impl "write_file");
    RAYA_FUNCTION "exists" (impl "exists");
    RAYA_FUNCTION "mkdir" (impl "mkdir");
    RAYA_FUNCTION "remove" (impl "remove");
    RAYA_FUNCTION "list_dir" (impl "list_dir") ].

(** ** Module registration *)

(** An entry of a module; the function pointer is kept as the symbol it
    designates. *)
Record Export := {
  export_name : string;
  export_symbol : string;
  export_arity : nat
}.

Record RayaModuleBuilder := {
  builder_name : string;
  builder_version : string;
  builder_functions : list Export
}.

Record RayaModule := {
  module_name : string;
  module_version : string;
  module_functions : list Export
}.

(** Modelled from the spec: the registry of [raya/module.h] (section 4.4): an
    ordered mapping from name to (function, arity), where adding a name again
    overwrites the entry. *)
Definition raya_module_builder_new (name version : string)
    : RayaModuleBuilder :=
  {| builder_name := name; builder_version := version;
     builder_functions := [] |}.

Fixpoint add_export (e : Export) (l : list Export) : list Export :=
  match l with
  | [] => [e]
  | e' :: l' =>
    if String.eqb (export_name e') (export_name e) then e :: l'
    else e' :: add_export e l'
  end.

Definition raya_module_add_function (builder : RayaModuleBuilder)
    (name : string) (func : string) (arity : nat)
    : RayaModuleBuilder :=
  {| builder_name := builder_name builder;
     builder_version := builder_version builder;
     builder_functions :=
       add_export
         {| export_name := name; export_symbol := func;
            export_arity := arity |}
         (builder_functions builder) |}.

Definition raya_module_builder_finish (builder : RayaModuleBuilder)
    : RayaModule :=
  {| module_name := builder_name builder;
     module_version := builder_version builder;
     module_functions := builder_functions builder |}.

(** [RAYA_MODULE_INIT(crypto)], through the [ModuleBuilder] wrapper class. *)
Definition raya_module_init_crypto : RayaModule :=
  let b := raya_module_builder_new "crypto" "1.0.0" in
  let b := raya_module_add_function b "hash" "native_hash" 2 in
  let b :=
    raya_module_add_function b "randomBytes" "native_random_bytes" 1 in
  let b :=
    raya_module_add_function b "constantTimeEqual"
      "native_constant_time_equal" 2 in
  raya_module_builder_finish b.

(** [RAYA_MODULE_INIT(fs)]. *)
Definition raya_module_init_fs : RayaModule :=
  let builder := raya_module_builder_new "fs" "1.0.0" in
  let builder :=
    raya_module_add_function builder "readFile" "native_read_file" 1 in
  let builder :=
    raya_module_add_function builder "writeFile" "native_write_file" 2 in
  let builder :=
    raya_module_add_function builder "exists" "native_exists" 1 in
  let builder :=
    raya_module_add_function builder "mkdir" "native_mkdir" 1 in
  let builder :=
    raya_module_add_function builder "remove" "native_remove" 1 in
  let builder :=
    raya_module_add_function builder "listDir" "native_list_dir" 1 in
  raya_module_builder_finish builder.

(** A call of an entry: the body that the file has for its symbol, applied
    to the arguments; no value at all when the file only declares it. *)
Definition call_export (unit : list TopLevel) (e : Export)
    (ctx : RayaContext) (args : list RayaValue) : option RayaValue :=
  match body_of unit (export_symbol e) with
  | Some body => Some (body ctx args)
  | None => None
  end.

(** ** Classifying returned values *)

Definition is_error (v : RayaValue) : bool :=
  match v with VError _ => true | _ => false end.

(** The message of the argument-count error of the function exported as
    [name] with [n] required arguments. *)
Definition argc_message (name : string) (n : nat) : string :=
  name +:+ "() requires "
       +:+ String (ascii_of_nat (48 + n)) ""
       +:+ (if (n =? 1)%nat then " argument" else " arguments").

(** An error whose message is [name() requires ...]. *)
Definition is_argc_error (name : string) (v : RayaValue) : bool :=
  match v with
  | VError msg => String.prefix (name +:+ "() requires ") msg
  | _ => false
  end.

(** Lowercase hexadecimal digits. *)
Definition is_lower_hex (c : ascii) : bool :=
  existsb (Ascii.eqb c) (list_ascii_of_string "0123456789abcdef").

Definition all_lower_hex (s : string) : bool :=
  forallb is_lower_hex (list_ascii_of_string s).

(** The two digits of every byte, in order. *)
Definition hex_chars (bytes : list Z) : list ascii :=
  flat_map (fun v => [hex_digit (v / 16); hex_digit (v mod 16)]) bytes.

(** ** Runtime types and declared signatures *)

Inductive ValueType :=
| TNull | TBool | TI32 | TString | TArray | TObject | TError.

#[global] Instance ValueType_eq_dec : EqDecision ValueType.
Proof. solve_decision. Defined.

Definition type_of (v : RayaValue) : ValueType :=
  match v with
  | VNull => TNull
  | VBool _ => TBool
  | VI32 _ => TI32
  | VString _ => TString
  | VArray _ => TArray
  | VObject _ => TObject
  | VError _ => TError
  end.

(** The parameter types that the doc comment of each native function
    declares ("Signature: hash(algorithm: string, data: string): string",
    "readFile(path: string): string", ...). *)
Definition signatures : list (string * list ValueType) :=
  [ ("hash", [TString; TString]);
    ("randomBytes", [TI32]);
    ("constantTimeEqual", [TString; TString]);
    ("readFile", [TString]);
    ("writeFile", [TString; TString]);
    ("exists", [TString]);
    ("mkdir", [TString]);
    ("remove", [TString]);
    ("listDir", [TString]) ].

(** The right number of arguments, one of them of another runtime type than
    the parameter it is passed for. *)
Definition mismatched (params : list ValueType) (args : list RayaValue)
    : bool :=
  (length args =? length params)%nat
  && existsb (fun '(t, v) => negb (bool_decide (type_of v = t)))
       (combine params args).

(** A function validates the types of its arguments when it answers a
    call with a mismatched argument by an error value that no call with
    well-typed arguments gets: the error reports the mismatch, and is not
    what the function says of the value a sentinel stands for. *)
Definition validates_types (f : RayaNativeFunction)
    (params : list ValueType) : Prop :=
  forall (ctx : RayaContext) (args : list RayaValue),
    mismatched params args = true ->
    is_error (f ctx args) = true
    /\ forall args' : list RayaValue,
         length args' = length params ->
         mismatched params args' = false ->
         f ctx args <> f ctx args'.

(** ** A concrete environment

    A small process environment to run the functions in: one regular file
    whose text happens to start with the word "Error", one directory. *)
Definition sample_ctx : RayaContext := {|
  env_SHA256 := fun data i => Z.of_nat (String.length data * 7 + i * 13);
  env_SHA512 := fun data i => Z.of_nat (String.length data * 11 + i * 5);
  env_random := fun k => Z.of_nat k * 77 + 300;
  env_stack := fun i => ascii_of_nat (i + 65);
  env_ifstream := fun path =>
    if String.eqb path "/tmp/app.log" then
      ReadContent "Error: disk quota exceeded (logged by app)"
    else ReadNotOpen;
  env_ofstream := fun path _ =>
    if String.eqb path "" then WriteNotOpen else WriteDone;
  env_exists := fun path =>
    String.eqb path "/tmp/app.log" || String.eqb path "/tmp";
  env_create_directories := fun path =>
    if String.eqb path "" then EcError "No such file or directory"
    else EcDone true;
  env_remove := fun path => EcDone (String.eqb path "/tmp/app.log");
  env_directory_iterator := fun path =>
    if String.eqb path "/tmp" then ListEntries ["app.log"]
    else ListThrows "filesystem error: directory iterator cannot open directory"
|}.

(** ** raya.h: release of host-owned handles *)

Inductive HandleKind := KVM | KValue | KError | KSnapshot.

#[global] Instance HandleKind_eq_dec : EqDecision HandleKind.
Proof. solve_decision. Defined.

Definition NULL : N := 0%N.

(** Modelled from the spec: the implementation behind [raya.h] is not part of
    the sources.  The allocator keeps the table of live handles and never
    hands out an address twice; a release function given NULL, or a handle
    that is not (or no longer) live as its kind, does nothing (sections 3,
    4.2, 4.5 and 8). *)
Record Allocator := {
  alloc_live : gmap N HandleKind;
  alloc_next : N
}.

Definition alloc_wf (a : Allocator) : Prop :=
  (0 < alloc_next a)%N /\
  forall h k, alloc_live a !! h = Some k -> (0 < h < alloc_next a)%N.

Definition allocate (k : HandleKind) (a : Allocator) : N * Allocator :=
  (alloc_next a,
   {| alloc_live := <[alloc_next a := k]> (alloc_live a);
      alloc_next := N.succ (alloc_next a) |}).

(** Modelled from the spec: what every release function does with the
    handle it is given; NULL and handles that are not live as kind [k] are
    ignored. *)
Definition release (k : HandleKind) (h : N) (a : Allocator) : Allocator :=
  if (h =? NULL)%N then a
  else match alloc_live a !! h with
       | Some k' =>
         if bool_decide (k' = k) then
           {| alloc_live := delete h (alloc_live a);
              alloc_next := alloc_next a |}
         else a
       | None => a
       end.

(** Modelled from the spec: the four release functions that [raya.h]
    declares. *)
Definition raya_vm_destroy (vm : N) : Allocator -> Allocator :=
  release KVM vm.
Definition raya_value_free (value : N) : Allocator -> Allocator :=
  release KValue value.
Definition raya_error_free (error : N) : Allocator -> Allocator :=
  release KError error.
Definition raya_snapshot_free (snapshot : N) : Allocator -> Allocator :=
  release KSnapshot snapshot.

Definition empty_allocator : Allocator :=
  {| alloc_live := ∅; alloc_next := 1%N |}.

(** [raya::TypeConverter<int32_t>]. *)
Definition TypeConverter_int32_from_raya (value : RayaValue) : Z :=
  raya_value_to_i32 value.

Definition TypeConverter_int32_to_raya (ctx : RayaContext) (value : Z)
    : RayaValue :=
  raya_value_from_i32 ctx value.

(** ** Reading hexadecimal back *)

Definition hex_value (c : ascii) : option Z :=
  match list_find (Ascii.eqb c) (list_ascii_of_string "0123456789abcdef") with
  | Some (i, _) => Some (Z.of_nat i)
  | None => None
  end.

(** Two digits per byte, the high one first. *)
Fixpoint hex_decode (l : list ascii) : option (list Z) :=
  match l with
  | [] => Some []
  | hi :: lo :: l' =>
    match hex_value hi, hex_value lo, hex_decode l' with
    | Some h, Some d, Some bytes => Some (h * 16 + d :: bytes)
    | _, _, _ => None
    end
  | [_] => None
  end.

(** ** hello.c

    The program is run against the answers of the library behind [raya.h]:
    what each call returns, and the error handle it stores through its
    [RayaError**] parameter, if it stores one.  The run is the exit code of
    [main] and the calls into the library in the order they are made; what
    [main] prints is left out, but not the calls [raya_version] and
    [raya_error_message] it makes to print. *)

Module Hello.

Inductive Call :=
| CVersion
| CVmNew
| CVmDestroy (vm : N)
| CLoadFile (vm : N) (path : string)
| CRunEntry (vm : N) (name : string)
| CValueNull
| CValueBool (value : Z)
| CValueI32 (value : Z)
| CValueFree (value : N)
| CErrorMessage (error : N)
| CErrorFree (error : N)
| CSnapshot (vm : N)
| CSnapshotFree (snapshot : N).

Record Library := {
  lib_vm_new : N * option N;
  lib_load_file : N -> string -> Z * option N;
  lib_run_entry : N -> string -> Z * option N;
  lib_value_null : N;
  lib_value_bool : Z -> N;
  lib_value_i32 : Z -> N;
  lib_snapshot : N -> N * option N
}.

(** The local [error] after a call that was given [&error]. *)
Definition stored (err : option N) (error : N) : N :=
  match err with
  | Some e => e
  | None => error
  end.

(** The block [if (argc > 1) { ... }]: either [main] returns from inside
    it (left), or control leaves it with the current [error] (right). *)
Definition load_and_run (argv : list string) (lib : Library) (vm error : N)
    : (Z * list Call) + (N * list Call) :=
  if (1 <? length argv)%nat then
    let path := nth 1 argv "" in
    let '(rc, err) := lib_load_file lib vm path in
    let error := stored err error in
    if negb (rc =? 0) then
      inl (1, [CLoadFile vm path; CErrorMessage error; CErrorFree error;
               CVmDestroy vm])
    else
      let '(rc, err) := lib_run_entry lib vm "main" in
      let error := stored err error in
      if negb (rc =? 0) then
        inl (1, [CLoadFile vm path; CRunEntry vm "main"; CErrorMessage error;
                 CErrorFree error; CVmDestroy vm])
      else inr (error, [CLoadFile vm path; CRunEntry vm "main"])
  else inr (error, []).

Definition main (argv : list string) (lib : Library) : Z * list Call :=
  let error := NULL in
  let '(vm, err) := lib_vm_new lib in
  let error := stored err error in
  if (vm =? NULL)%N then
    (1, [CVersion; CVmNew; CErrorMessage error; CErrorFree error])
  else
    match load_and_run argv lib vm error with
    | inl (code, calls) => (code, [CVersion; CVmNew] ++ calls)
    | inr (error, calls) =>
      let null_val := lib_value_null lib in
      let bool_val := lib_value_bool lib 1 in
      let int_val := lib_value_i32 lib 42 in
      let '(snapshot, err) := lib_snapshot lib vm in
      let error := stored err error in
      (0, [CVersion; CVmNew] ++ calls
          ++ [CValueNull; CValueBool 1; CValueI32 42;
              CValueFree null_val; CValueFree bool_val; CValueFree int_val;
              CSnapshot vm]
          ++ (if (snapshot =? NULL)%N
              then [CErrorMessage error; CErrorFree error]
              else [CSnapshotFree snapshot])
          ++ [CVmDestroy vm])
    end.

Definition is_destroy (c : Call) : bool :=
  match c with CVmDestroy _ => true | _ => false end.

Definition is_error_free (c : Call) : bool :=
  match c with CErrorFree _ => true | _ => false end.

(** The handles passed to [raya_value_free], in order. *)
Definition freed_values (calls : list Call) : list N :=
  omap (fun c => match c with CValueFree v => Some v | _ => None end) calls.

Definition creates_value (c : Call) : bool :=
  match c with
  | CValueNull | CValueBool _ | CValueI32 _ => true
  | _ => false
  end.

Definition freed_snapshots (calls : list Call) : list N :=
  omap (fun c => match c with CSnapshotFree s => Some s | _ => None end)
    calls.

(** Every [raya_error_free(e)] comes right after [raya_error_message(e)]. *)
Fixpoint frees_after_message (calls : list Call) : bool :=
  match calls with
  | [] => true
  | CErrorFree _ :: _ => false
  | CErrorMessage e :: CErrorFree e' :: calls' =>
      (e =? e')%N && frees_after_message calls'
  | _ :: calls' => frees_after_message calls'
  end.

(** The calls that are given a VM. *)
Definition takes_vm (c : Call) : option N :=
  match c with
  | CVmDestroy vm | CLoadFile vm _ | CRunEntry vm _ | CSnapshot vm => Some vm
  | _ => None
  end.

Definition count_calls (f : Call -> bool) (calls : list Call) : nat :=
  length (List.filter f calls).

(** A library that creates the VM, loads and runs any file but
    "broken.rbin", and has no snapshots. *)
Definition sample_library : Library := {|
  lib_vm_new := (16%N, None);
  lib_load_file := fun _ path =>
    if String.eqb path "broken.rbin" then (-1, Some 32%N) else (0, None);
  lib_run_entry := fun _ _ => (0, None);
  lib_value_null := 48%N;
  lib_value_bool := fun _ => 64%N;
  lib_value_i32 := fun _ => 80%N;
  lib_snapshot := fun _ => (NULL, Some 96%N)
|}.

End Hello.

(** The sample environment with other bytes left on the stack. *)
Definition dirty_stack_ctx : RayaContext := {|
  env_SHA256 := env_SHA256 sample_ctx;
  env_SHA512 := env_SHA512 sample_ctx;
  env_random := env_random sample_ctx;
  env_stack := fun i => if Nat.even i then CStr.NUL else "z"%char;
  env_ifstream := env_ifstream sample_ctx;
  env_ofstream := env_ofstream sample_ctx;
  env_exists := env_exists sample_ctx;
  env_create_directories := env_create_directories sample_ctx;
  env_remove := env_remove sample_ctx;
  env_directory_iterator := env_directory_iterator sample_ctx
|}.

(* ===================================================================== *)
(** * Properties *)

(** ** Loops *)

Lemma for_upto_ind {St : Type} (P : nat -> St -> Prop)
    (body : nat -> St -> St) (count i : nat) (st : St) :
  P i st ->
  (forall j s, (i <= j < i + count)%nat -> P j s -> P (S j) (body j s)) ->
  P (i + count)%nat (for_upto count i body st).
Proof.
  revert i st. induction count as [|count IH]; intros i st H0 Hstep; simpl.
  - now rewrite Nat.add_0_r.
  - replace (i + S count)%nat with (S i + count)%nat by lia.
    apply IH.
    + apply Hstep; [lia | exact H0].
    + intros j s Hj. apply Hstep. lia.
Qed.

(** A loop that stores [f i] into slot [i] of an [n]-slot buffer leaves
    [f 0, ..., f (n-1)]. *)
Lemma fill_loop {A : Type} (f : nat -> A) (n : nat) (l : list A) :
  length l = n ->
  for_upto n 0 (fun i l => <[i := f i]> l) l = map f (seq 0 n).
Proof.
  intros Hlen.
  pose (P := fun (j : nat) (s : list A) =>
               length s = n /\ forall k, (k < j)%nat -> s !! k = Some (f k)).
  assert (HP : P (0 + n)%nat (for_upto n 0 (fun i l => <[i := f i]> l) l)).
  { apply for_upto_ind.
    - split; [exact Hlen | intros k Hk; lia].
    - intros j s Hj [Hs Hk]. split.
      + now rewrite length_insert.
      + intros k Hlt. destruct (decide (k = j)) as [->|Hne].
        * apply list_lookup_insert_eq. lia.
        * rewrite list_lookup_insert_ne by congruence. apply Hk. lia. }
  destruct HP as [Hl Hk]. simpl in Hk.
  apply list_eq. intros k.
  destruct (decide (k < n)%nat) as [Hlt|Hge].
  - rewrite Hk by exact Hlt.
    rewrite list_lookup_fmap, lookup_seq_lt by exact Hlt. reflexivity.
  - rewrite !lookup_ge_None_2; [reflexivity | |].
    + rewrite length_map, length_seq. lia.
    + lia.
Qed.

Lemma array_set_loop (g : nat -> RayaValue) (n i : nat)
    (elems : list RayaValue) :
  for_upto n i (fun i array => raya_array_set array i (g i)) (VArray elems)
  = VArray (for_upto n i (fun i l => <[i := g i]> l) elems).
Proof.
  revert i elems. induction n as [|n IH]; intros i elems; simpl.
  - reflexivity.
  - apply IH.
Qed.

(** ** C strings *)

Lemma is_nul_true (c : ascii) : CStr.is_nul c = true <-> c = CStr.NUL.
Proof. unfold CStr.is_nul. apply Ascii.eqb_eq. Qed.

Lemma is_nul_false (c : ascii) : CStr.is_nul c = false <-> c <> CStr.NUL.
Proof. unfold CStr.is_nul. apply Ascii.eqb_neq. Qed.

Lemma to_uchar_inj (c d : ascii) : CStr.to_uchar c = CStr.to_uchar d -> c = d.
Proof.
  unfold CStr.to_uchar. intros H. apply N2Z.inj in H.
  rewrite <- (ascii_N_embedding c), <- (ascii_N_embedding d). now rewrite H.
Qed.

Lemma to_uchar_range (c : ascii) : 0 <= CStr.to_uchar c < 256.
Proof.
  unfold CStr.to_uchar. pose proof (N_ascii_bounded c). lia.
Qed.

Lemma content_idem (p : string) : CStr.content (CStr.content p) = CStr.content p.
Proof.
  induction p as [|c p IH]; simpl; [reflexivity|].
  destruct (CStr.is_nul c) eqn:E; simpl; [reflexivity|].
  now rewrite E, IH.
Qed.

Lemma content_app (p q : string) :
  CStr.no_nul p -> CStr.content (p +:+ q) = p +:+ CStr.content q.
Proof.
  unfold CStr.no_nul. induction p as [|c p IH]; simpl; intros H; [reflexivity|].
  destruct (CStr.is_nul c) eqn:E; [discriminate|].
  injection H as H. now rewrite IH.
Qed.

Lemma strlen_content (p : string) : String.length (CStr.content p) = CStr.strlen p.
Proof.
  induction p as [|c p IH]; simpl; [reflexivity|].
  destruct (CStr.is_nul c); simpl; congruence.
Qed.

(** ** The exports of the two modules *)

Lemma crypto_exports :
  module_functions raya_module_init_crypto =
  [ {| export_name := "hash"; export_symbol := "native_hash";
       export_arity := 2 |};
    {| export_name := "randomBytes"; export_symbol := "native_random_bytes";
       export_arity := 1 |};
    {| export_name := "constantTimeEqual";
       export_symbol := "native_constant_time_equal"; export_arity := 2 |} ].
Proof. reflexivity. Qed.

Lemma fs_exports :
  module_functions raya_module_init_fs =
  [ {| export_name := "readFile"; export_symbol := "native_read_file";
       export_arity := 1 |};
    {| export_name := "writeFile"; export_symbol := "native_write_file";
       export_arity := 2 |};
    {| export_name := "exists"; export_symbol := "native_exists";
       export_arity := 1 |};
    {| export_name := "mkdir"; export_symbol := "native_mkdir";
       export_arity := 1 |};
    {| export_name := "remove"; export_symbol := "native_remove";
       export_arity := 1 |};
    {| export_name := "listDir"; export_symbol := "native_list_dir";
       export_arity := 1 |} ].
Proof. reflexivity. Qed.

Ltac each_crypto_export H :=
  rewrite crypto_exports in H; simpl in H;
  repeat (destruct H as [<- | H]); [.. | contradiction];
  unfold call_export;
  cbn [export_name export_symbol export_arity body_of crypto_cpp String.eqb
       Ascii.eqb Bool.eqb].

Ltac wrong_argc Hlen :=
  match goal with
  | |- context [(argc ?args =? ?n)%nat] =>
    unfold argc; destruct (Nat.eqb_spec (length args) n);
    [exfalso; apply Hlen; assumption | reflexivity]
  end.

Ltac enter_body := unfold arg, argc; cbn [nth length Nat.eqb negb].

Lemma args_one (args : list RayaValue) :
  length args = 1%nat -> exists v, args = [v].
Proof. destruct args as [|v [|w l]]; try discriminate. now exists v. Qed.

Lemma args_two (args : list RayaValue) :
  length args = 2%nat -> exists v w, args = [v; w].
Proof.
  destruct args as [|v [|w [|x l]]]; try discriminate. now exists v, w.
Qed.

Lemma array_loop_not_error (ctx : RayaContext) (g : nat -> RayaValue)
    (n m : nat) (name : string) :
  is_argc_error name
    (for_upto n 0 (fun i array => raya_array_set array i (g i))
       (raya_array_new ctx m)) = false.
Proof. unfold raya_array_new. now rewrite array_set_loop. Qed.

Lemma native_hash_accepts (ctx : RayaContext) (args : list RayaValue) :
  length args = 2%nat -> is_argc_error "hash" (native_hash ctx args) = false.
Proof.
  intros (v & w & ->)%args_two. unfold native_hash. enter_body.
  destruct (raya_value_to_string v) as [algorithm|]; [|reflexivity].
  destruct (raya_value_to_string w) as [data|]; [|reflexivity].
  destruct (CStr.strcmp algorithm "sha256" =? 0); [reflexivity|].
  destruct (CStr.strcmp algorithm "sha512" =? 0); reflexivity.
Qed.

Lemma native_random_bytes_accepts (ctx : RayaContext) (args : list RayaValue) :
  length args = 1%nat ->
  is_argc_error "randomBytes" (native_random_bytes ctx args) = false.
Proof.
  intros (v & ->)%args_one. unfold native_random_bytes. enter_body.
  destruct ((raya_value_to_i32 v <=? 0) || (raya_value_to_i32 v >? 1024 * 1024));
    [reflexivity|].
  apply array_loop_not_error.
Qed.

Lemma native_constant_time_equal_accepts (ctx : RayaContext)
    (args : list RayaValue) :
  length args = 2%nat ->
  is_argc_error "constantTimeEqual" (native_constant_time_equal ctx args)
  = false.
Proof.
  intros (v & w & ->)%args_two. unfold native_constant_time_equal. enter_body.
  destruct (raya_value_to_string v), (raya_value_to_string w); reflexivity.
Qed.

(** The three functions of crypto.cpp check [argc] themselves. *)
Lemma crypto_argc_guard (e : Export) (ctx : RayaContext)
    (args : list RayaValue) :
  In e (module_functions raya_module_init_crypto) ->
  length args <> export_arity e ->
  call_export crypto_cpp e ctx args
  = Some (VError (argc_message (export_name e) (export_arity e))).
Proof.
  intros Hin Hlen. each_crypto_export Hin; f_equal.
  - unfold native_hash. wrong_argc Hlen.
  - unfold native_random_bytes. wrong_argc Hlen.
  - unfold native_constant_time_equal. wrong_argc Hlen.
Qed.

Lemma crypto_accepts (e : Export) (ctx : RayaContext)
    (args : list RayaValue) :
  In e (module_functions raya_module_init_crypto) ->
  length args = export_arity e ->
  exists v, call_export crypto_cpp e ctx args = Some v
            /\ is_argc_error (export_name e) v = false.
Proof.
  intros Hin Hlen. each_crypto_export Hin; eexists; (split; [reflexivity|]).
  - now apply native_hash_accepts.
  - now apply native_random_bytes_accepts.
  - now apply native_constant_time_equal_accepts.
Qed.

(** Every entry of the fs module names a function that fs.cpp declares and
    does not define, whatever text its [RAYA_FUNCTION] was given. *)
Lemma fs_export_has_no_body {Impl : Type} (impl : string -> Impl)
    (e : Export) :
  In e (module_functions raya_module_init_fs) ->
  body_of (fs_cpp impl) (export_symbol e) = None.
Proof.
  intros Hin. rewrite fs_exports in Hin. simpl in Hin.
  repeat (destruct Hin as [<- | Hin]); [.. | contradiction]; reflexivity.
Qed.

(** C4. The three functions of the crypto module, called with a number of
    arguments different from the one they require, return the error value
    with their argument-count message, by a check of their own.  The six
    functions of the fs module return nothing: [RAYA_FUNCTION] drops the
    body it is given, the argument-count check with it, and fs.cpp only
    declares them. *)
Theorem argc_check_in_crypto_not_in_fs :
  (forall (e : Export) (ctx : RayaContext) (args : list RayaValue),
      In e (module_functions raya_module_init_crypto) ->
      length args <> export_arity e ->
      call_export crypto_cpp e ctx args
      = Some (VError (argc_message (export_name e) (export_arity e))))
  /\ (forall (Impl : Type) (impl : string -> Impl) (e : Export)
             (ctx : RayaContext) (args : list RayaValue),
         In e (module_functions raya_module_init_fs) ->
         call_export (fs_cpp impl) e ctx args = None).
Proof.
  split.
  - apply crypto_argc_guard.
  - intros Impl impl e ctx args Hin. unfold call_export.
    now rewrite (fs_export_has_no_body impl e Hin).
Qed.

Lemma argc_check_in_crypto_not_in_fs_witness :
  call_export crypto_cpp
    {| export_name := "hash"; export_symbol := "native_hash";
       export_arity := 2 |} sample_ctx [VString "sha256"]
  = Some (VError "hash() requires 2 arguments")
  /\ call_export (fs_cpp (fun _ : string => tt))
       {| export_name := "readFile"; export_symbol := "native_read_file";
          export_arity := 1 |} sample_ctx []
     = None.
Proof.
  split.
  - apply (proj1 argc_check_in_crypto_not_in_fs
             {| export_name := "hash"; export_symbol := "native_hash";
                export_arity := 2 |} sample_ctx [VString "sha256"]).
    + rewrite crypto_exports. simpl. tauto.
    + simpl. lia.
  - apply (proj2 argc_check_in_crypto_not_in_fs).
    rewrite fs_exports. simpl. tauto.
Defined.

(** C10. Both module initialisers declare the arities hash 2, randomBytes
    1, constantTimeEqual 2, readFile 1, writeFile 2, exists 1, mkdir 1,
    remove 1, listDir 1.  For the crypto module the declared arity is the
    one number of arguments for which the registered function does not
    return an argument-count error.  For the fs module the registered
    symbols have no body in fs.cpp, so there is nothing that accepts or
    refuses a number of arguments. *)
Theorem declared_arity_crypto_only :
  map (fun e => (export_name e, export_arity e))
      (module_functions raya_module_init_crypto)
  = [("hash", 2%nat); ("randomBytes", 1%nat); ("constantTimeEqual", 2%nat)]
  /\ map (fun e => (export_name e, export_arity e))
      (module_functions raya_module_init_fs)
  = [("readFile", 1%nat); ("writeFile", 2%nat); ("exists", 1%nat);
     ("mkdir", 1%nat); ("remove", 1%nat); ("listDir", 1%nat)]
  /\ (forall (e : Export) (ctx : RayaContext) (args : list RayaValue),
        In e (module_functions raya_module_init_crypto) ->
        ((exists v, call_export crypto_cpp e ctx args = Some v
                    /\ is_argc_error (export_name e) v = false)
         <-> length args = export_arity e))
  /\ (forall (Impl : Type) (impl : string -> Impl) (e : Export),
        In e (module_functions raya_module_init_fs) ->
        body_of (fs_cpp impl) (export_symbol e) = None).
Proof.
  split; [reflexivity|]. split; [reflexivity|]. split.
  - intros e ctx args Hin. split.
    + intros (v & Hcall & Hno).
      destruct (decide (length args = export_arity e)) as [|Hne];
        [assumption|].
      rewrite (crypto_argc_guard e ctx args Hin Hne) in Hcall.
      injection Hcall as <-. exfalso. revert Hno.
      rewrite crypto_exports in Hin. simpl in Hin.
      repeat (destruct Hin as [<- | Hin]); [.. | contradiction];
        discriminate.
    + now apply crypto_accepts.
  - intros Impl impl e. apply fs_export_has_no_body.
Qed.

Lemma declared_arity_crypto_only_witness :
  (exists v,
      call_export crypto_cpp
        {| export_name := "randomBytes";
           export_symbol := "native_random_bytes"; export_arity := 1 |}
        sample_ctx [VI32 4] = Some v
      /\ is_argc_error "randomBytes" v = false)
  <-> length [VI32 4] = 1%nat.
Proof.
  apply (proj1 (proj2 (proj2 declared_arity_crypto_only))
           {| export_name := "randomBytes";
              export_symbol := "native_random_bytes"; export_arity := 1 |}
           sample_ctx [VI32 4]).
  rewrite crypto_exports. simpl. tauto.
Defined.

(** ** randomBytes *)

Lemma nth_map_seq {A : Type} (h : nat -> A) (n i : nat) (d : A) :
  (i < n)%nat -> nth i (map h (seq 0 n)) d = h i.
Proof.
  intros Hi. apply nth_lookup_Some.
  rewrite list_lookup_fmap, lookup_seq_lt by exact Hi. reflexivity.
Qed.

Lemma random_bytes_array (ctx : RayaContext) (n : nat) :
  let bytes :=
    for_upto n 0 (fun i bytes => <[i := to_uint8 (env_random ctx i)]> bytes)
      (replicate n 0) in
  for_upto n 0
    (fun i array =>
       raya_array_set array i (raya_value_from_i32 ctx (nth i bytes 0)))
    (raya_array_new ctx n)
  = VArray (map (fun i => VI32 (to_uint8 (env_random ctx i))) (seq 0 n)).
Proof.
  intros bytes. unfold raya_array_new. rewrite array_set_loop. f_equal.
  rewrite fill_loop by apply length_replicate.
  apply map_ext_in. intros i Hi%in_seq.
  unfold raya_value_from_i32, bytes. f_equal.
  rewrite (fill_loop (fun i => to_uint8 (env_random ctx i)))
    by apply length_replicate.
  apply (nth_map_seq (fun i => to_uint8 (env_random ctx i))). lia.
Qed.

(** C3. Called with one integer argument, [native_random_bytes] returns the
    argument error when the length is zero, negative or above the cap
    1048576, and for every length from 1 to the cap (the cap included) an
    array of exactly that many elements, each a byte. *)
Theorem native_random_bytes_length (ctx : RayaContext) (len : Z) :
  ((len <= 0 \/ 1048576 < len) ->
   native_random_bytes ctx [VI32 len]
   = VError "Length must be between 1 and 1048576")
  /\ (1 <= len <= 1048576 ->
      exists elems,
        native_random_bytes ctx [VI32 len] = VArray elems
        /\ Z.of_nat (length elems) = len
        /\ elems = map (fun i => VI32 (to_uint8 (env_random ctx i)))
                     (seq 0 (Z.to_nat len))).
Proof.
  unfold native_random_bytes. enter_body. cbn [raya_value_to_i32].
  change (1024 * 1024) with 1048576. split.
  - intros Hbad.
    destruct (len <=? 0) eqn:E1; [reflexivity|].
    destruct (len >? 1048576) eqn:E2; [reflexivity|]. lia.
  - intros Hok.
    destruct (len <=? 0) eqn:E1; [lia|].
    destruct (len >? 1048576) eqn:E2; [lia|]. cbn [orb].
    eexists. split; [apply random_bytes_array|]. split; [|reflexivity].
    rewrite length_map, length_seq. lia.
Qed.

Lemma native_random_bytes_length_witness :
  exists elems,
    native_random_bytes sample_ctx [VI32 1048576] = VArray elems
    /\ Z.of_nat (length elems) = 1048576
    /\ elems = map (fun i => VI32 (to_uint8 (env_random sample_ctx i)))
                 (seq 0 (Z.to_nat 1048576)).
Proof.
  apply (proj2 (native_random_bytes_length sample_ctx 1048576)). lia.
Defined.

(** ** hash *)

Lemma strcmp_eq (p q : string) :
  CStr.strcmp p q = 0 <-> CStr.content p = CStr.content q.
Proof.
  revert q. induction p as [|c p IH]; intros [|d q]; cbn -[CStr.to_uchar].
  - tauto.
  - destruct (CStr.is_nul d) eqn:E.
    + apply is_nul_true in E as ->. tauto.
    + apply is_nul_false in E.
      destruct (Z.eqb_spec (CStr.to_uchar CStr.NUL) (CStr.to_uchar d)) as [H|H].
      * apply to_uchar_inj in H. congruence.
      * cbn [negb]. split; [lia | discriminate].
  - destruct (CStr.is_nul c) eqn:E.
    + apply is_nul_true in E as ->. tauto.
    + pose proof E as E'. apply is_nul_false in E'.
      destruct (Z.eqb_spec (CStr.to_uchar c) (CStr.to_uchar CStr.NUL)) as [H|H].
      * apply to_uchar_inj in H. congruence.
      * cbn [negb]. split; [lia | discriminate].
  - destruct (Z.eqb_spec (CStr.to_uchar c) (CStr.to_uchar d)) as [H|H];
      cbn [negb].
    + apply to_uchar_inj in H as <-.
      destruct (CStr.is_nul c); [tauto|].
      rewrite IH. split; [congruence | now intros [= ->]].
    + split; [lia|]. intros Heq. exfalso. apply H.
      destruct (CStr.is_nul c) eqn:Ec, (CStr.is_nul d) eqn:Ed;
        try discriminate.
      * apply is_nul_true in Ec, Ed. congruence.
      * injection Heq as -> _. reflexivity.
Qed.

Lemma hex_digit_cases (d : Z) :
  0 <= d < 16 ->
  hex_digit d <> CStr.NUL /\ is_lower_hex (hex_digit d) = true.
Proof.
  intros Hd.
  assert (H : In d [0; 1; 2; 3; 4; 5; 6; 7; 8; 9; 10; 11; 12; 13; 14; 15])
    by (simpl; lia).
  simpl in H.
  repeat (destruct H as [<- | H]; [split; [discriminate | reflexivity]|]).
  contradiction.
Qed.

Lemma hex_chars_app (l : list Z) (v : Z) :
  hex_chars (l ++ [v])
  = hex_chars l ++ [hex_digit (v / 16); hex_digit (v mod 16)].
Proof. unfold hex_chars. now rewrite flat_map_app. Qed.

Lemma hex_chars_length (l : list Z) :
  length (hex_chars l) = (length l * 2)%nat.
Proof.
  induction l as [|v l IH]; [reflexivity|].
  change (hex_chars (v :: l))
    with (hex_digit (v / 16) :: hex_digit (v mod 16) :: hex_chars l).
  simpl. rewrite IH. lia.
Qed.

Lemma hex_chars_digits (l : list Z) :
  Forall (fun v => 0 <= v < 256) l ->
  Forall (fun c => c <> CStr.NUL /\ is_lower_hex c = true) (hex_chars l).
Proof.
  induction 1 as [|v l Hv _ IH]; [constructor|].
  change (hex_chars (v :: l))
    with (hex_digit (v / 16) :: hex_digit (v mod 16) :: hex_chars l).
  repeat constructor; try apply hex_digit_cases; try exact IH.
  - split; [apply Z.div_pos; lia | apply Z.div_lt_upper_bound; lia].
  - split; [apply Z.div_pos; lia | apply Z.div_lt_upper_bound; lia].
  - apply Z.mod_pos_bound; lia.
  - apply Z.mod_pos_bound; lia.
Qed.

Lemma sprintf_02x_app (pre rest : list ascii) (r0 r1 r2 : ascii) (v : Z) :
  sprintf_02x (pre ++ r0 :: r1 :: r2 :: rest) (length pre) v
  = (pre ++ [hex_digit (v / 16); hex_digit (v mod 16)]) ++ CStr.NUL :: rest.
Proof.
  unfold sprintf_02x.
  rewrite <- (Nat.add_0_r (length pre)) at 3.
  rewrite !insert_app_r. rewrite <- app_assoc. reflexivity.
Qed.

(** The hex loop fills the buffer from the left, two digits per byte, and
    does not depend on what the buffer held before. *)
Lemma hex_loop (hash : list Z) (hex : list ascii) :
  length hex = (length hash * 2 + 1)%nat ->
  exists last,
    for_upto (length hash) 0
      (fun i hex => sprintf_02x hex (i * 2) (nth i hash 0)) hex
    = hex_chars hash ++ [last].
Proof.
  intros Hlen.
  pose (n := length hash).
  pose (P := fun (j : nat) (buf : list ascii) =>
               exists rest, buf = hex_chars (take j hash) ++ rest
                            /\ length rest = (n * 2 + 1 - j * 2)%nat).
  assert (HP : P (0 + n)%nat
                 (for_upto n 0
                    (fun i hex => sprintf_02x hex (i * 2) (nth i hash 0)) hex)).
  { apply for_upto_ind.
    - exists hex. split; [reflexivity | unfold n; lia].
    - intros j buf Hj (rest & -> & Hrest).
      assert (Hlook : hash !! j = Some (nth j hash 0)).
      { destruct (lookup_lt_is_Some_2 hash j) as [x Hx];
          [unfold n in Hj; lia|].
        rewrite Hx. f_equal. symmetry. now apply nth_lookup_Some. }
      destruct rest as [|r0 [|r1 [|r2 rest]]]; simpl in Hrest; try lia.
      exists (CStr.NUL :: rest). split.
      + rewrite (take_S_r _ _ _ Hlook), hex_chars_app.
        replace (j * 2)%nat with (length (hex_chars (take j hash))).
        * apply sprintf_02x_app.
        * rewrite hex_chars_length, length_take. unfold n in Hj. lia.
      + simpl. lia. }
  destruct HP as (rest & Heq & Hrest). simpl in Heq.
  unfold n in Heq, Hrest. rewrite firstn_all in Heq.
  destruct rest as [|last [|]]; simpl in Hrest; try lia.
  now exists last.
Qed.

Lemma content_terminated (l rest : list ascii) :
  Forall (fun c => c <> CStr.NUL) l ->
  CStr.content (string_of_list_ascii (l ++ CStr.NUL :: rest))
  = string_of_list_ascii l.
Proof.
  induction 1 as [|c l Hc _ IH]; [reflexivity|].
  simpl. apply is_nul_false in Hc. now rewrite Hc, IH.
Qed.

Lemma string_of_list_ascii_length (l : list ascii) :
  String.length (string_of_list_ascii l) = length l.
Proof. induction l; simpl; congruence. Qed.

Lemma digest_buffer_bytes (digest : nat -> Z) (n : nat) :
  length (digest_buffer digest n) = n
  /\ Forall (fun v => 0 <= v < 256) (digest_buffer digest n).
Proof.
  unfold digest_buffer. split.
  - now rewrite length_map, length_seq.
  - apply List.Forall_forall. intros v (i & <- & _)%in_map_iff.
    unfold to_uint8. apply Z.mod_pos_bound. lia.
Qed.

(** What [raya_value_from_string(ctx, hex)] returns after the hex block. *)
Lemma hex_of_digest_value (ctx : RayaContext) (digest : nat -> Z) (n : nat) :
  let h := string_of_list_ascii (hex_chars (digest_buffer digest n)) in
  raya_value_from_string ctx (hex_of_digest ctx (digest_buffer digest n) n)
  = VString h
  /\ String.length h = (n * 2)%nat
  /\ all_lower_hex h = true.
Proof.
  destruct (digest_buffer_bytes digest n) as [Hlen Hbytes].
  pose proof (hex_chars_digits _ Hbytes) as Hdigits.
  intros h. split; [|split].
  - unfold raya_value_from_string, hex_of_digest. f_equal.
    destruct (hex_loop (digest_buffer digest n) (stack_buffer ctx (n * 2 + 1)))
      as [last Hloop].
    { unfold stack_buffer. rewrite length_map, length_seq, Hlen. reflexivity. }
    rewrite Hlen in Hloop. rewrite Hloop.
    replace (n * 2)%nat with (length (hex_chars (digest_buffer digest n)) + 0)%nat
      by (rewrite hex_chars_length, Hlen; lia).
    rewrite insert_app_r. simpl.
    apply content_terminated.
    eapply Forall_impl; [exact Hdigits | now intros c [Hc _]].
  - unfold h. rewrite string_of_list_ascii_length, hex_chars_length, Hlen.
    reflexivity.
  - unfold h, all_lower_hex. rewrite list_ascii_of_string_of_list_ascii.
    apply forallb_forall. intros c Hc.
    eapply List.Forall_forall in Hdigits; [|exact Hc]. apply Hdigits.
Qed.

Lemma no_nul_app (p q : string) :
  CStr.no_nul p -> CStr.no_nul q -> CStr.no_nul (p +:+ q).
Proof.
  intros Hp Hq. unfold CStr.no_nul. rewrite content_app by exact Hp.
  now rewrite Hq.
Qed.

Lemma unsupported_message (ctx : RayaContext) (algorithm : string) :
  let error := "Unsupported hash algorithm: " in
  let error := error +:+ CStr.content algorithm in
  let error := error +:+ " (supported: sha256, sha512)" in
  raya_error_new ctx error = VError error.
Proof.
  cbv zeta. unfold raya_error_new. f_equal.
  apply no_nul_app; [apply no_nul_app|]; try reflexivity.
  apply content_idem.
Qed.

(** C9. Called with two string arguments, [native_hash] returns for the
    algorithm "sha256" a string of exactly 64 lowercase hexadecimal
    characters, for "sha512" one of exactly 128, and for every other
    algorithm an error value whose message names the algorithm. *)
Theorem native_hash_result (ctx : RayaContext) (algorithm data : string) :
  let r := native_hash ctx [VString algorithm; VString data] in
  (CStr.content algorithm = "sha256" ->
   exists h, r = VString h /\ String.length h = 64%nat
             /\ all_lower_hex h = true)
  /\ (CStr.content algorithm = "sha512" ->
      exists h, r = VString h /\ String.length h = 128%nat
                /\ all_lower_hex h = true)
  /\ (CStr.content algorithm <> "sha256" ->
      CStr.content algorithm <> "sha512" ->
      r = VError (("Unsupported hash algorithm: " +:+ CStr.content algorithm)
                  +:+ " (supported: sha256, sha512)")).
Proof.
  intros r. unfold r, native_hash. enter_body. cbn [raya_value_to_string].
  assert (H256 : CStr.strcmp algorithm "sha256" = 0
                 <-> CStr.content algorithm = "sha256")
    by apply strcmp_eq.
  assert (H512 : CStr.strcmp algorithm "sha512" = 0
                 <-> CStr.content algorithm = "sha512")
    by apply strcmp_eq.
  destruct (Z.eqb_spec (CStr.strcmp algorithm "sha256") 0) as [E1|E1];
    [|destruct (Z.eqb_spec (CStr.strcmp algorithm "sha512") 0) as [E2|E2]].
  - apply H256 in E1. split; [|split].
    + intros _. eexists. apply hex_of_digest_value.
    + intros E. rewrite E in E1. discriminate.
    + intros E. contradiction.
  - apply H512 in E2. split; [|split].
    + intros E. rewrite E in E2. discriminate.
    + intros _. eexists. apply hex_of_digest_value.
    + intros _ E. contradiction.
  - split; [|split].
    + intros E%H256. contradiction.
    + intros E%H512. contradiction.
    + intros _ _. apply unsupported_message.
Qed.

Lemma native_hash_result_witness :
  exists h,
    native_hash sample_ctx [VString "sha256"; VString "hello world"]
    = VString h
    /\ String.length h = 64%nat /\ all_lower_hex h = true.
Proof.
  apply (proj1 (native_hash_result sample_ctx "sha256" "hello world")).
  reflexivity.
Defined.

(** ** constantTimeEqual *)

Lemma is_byte_land (z : Z) : is_byte z <-> Z.land z (Z.ones 8) = z.
Proof.
  rewrite Z.land_ones by lia. unfold is_byte. split.
  - intros H. apply Z.mod_small. lia.
  - intros <-. apply Z.mod_pos_bound. lia.
Qed.

Lemma is_byte_lor (x y : Z) : is_byte x -> is_byte y -> is_byte (Z.lor x y).
Proof.
  rewrite !is_byte_land. intros Hx Hy.
  now rewrite Z.land_lor_distr_l, Hx, Hy.
Qed.

Lemma is_byte_lxor (x y : Z) : is_byte x -> is_byte y -> is_byte (Z.lxor x y).
Proof.
  rewrite !is_byte_land. intros Hx Hy.
  apply Z.bits_inj'. intros k Hk.
  rewrite <- Hx, <- Hy. rewrite !Z.land_spec, !Z.lxor_spec, !Z.land_spec.
  destruct (Z.testbit x k), (Z.testbit y k), (Z.testbit (Z.ones 8) k);
    reflexivity.
Qed.

Lemma fetch_is_byte (p : string) (acc : Access) : is_byte (fetch p acc).
Proof.
  destruct acc; simpl; [apply to_uchar_range | unfold is_byte; lia].
Qed.

(** The length check cannot hide a difference found by the loop: the low
    eight bits of [result] survive the conversion back to [int]. *)
Lemma to_int_lor_zero (r x : Z) :
  is_byte r -> to_int (Z.lor r x) = 0 -> r = 0.
Proof.
  intros Hr Hz. unfold to_int in Hz.
  assert (Hmod : Z.lor r x mod 256 = 0).
  { change (2 ^ 31) with 2147483648 in Hz.
    change (2 ^ 32) with 4294967296 in Hz.
    revert Hz. generalize (Z.lor r x). intros z Hz.
    Z.div_mod_to_equations. lia. }
  change 256 with (2 ^ 8) in Hmod. rewrite <- Z.land_ones in Hmod by lia.
  rewrite Z.land_lor_distr_l in Hmod.
  apply Z.lor_eq_0_iff in Hmod as [Hr0 _].
  apply is_byte_land in Hr. congruence.
Qed.

Lemma compare_loop_result (a b : string) (la lb n i : nat) (st : CmpState) :
  is_byte (result st) ->
  let r := result (for_upto n i (compare_step a b la lb) st) in
  is_byte r
  /\ (r = 0 <->
      result st = 0
      /\ forall j, (i <= j < i + n)%nat ->
                   fetch a (access la j) = fetch b (access lb j)).
Proof.
  revert i st. induction n as [|n IH]; intros i st Hst; simpl.
  - split; [exact Hst|]. split; [|tauto]. intros H. split; [exact H|]. lia.
  - specialize (IH (S i) (compare_step a b la lb i st)).
    destruct IH as [Hb Hiff].
    { simpl. apply is_byte_lor; [exact Hst|].
      apply is_byte_lxor; apply fetch_is_byte. }
    split; [exact Hb|]. rewrite Hiff. simpl.
    rewrite Z.lor_eq_0_iff, Z.lxor_eq_0_iff. split.
    + intros [[H0 Hi] Hrest]. split; [exact H0|].
      intros j Hj. destruct (decide (j = i)) as [->|Hne]; [exact Hi|].
      apply Hrest. lia.
    + intros [H0 Hall]. split; [split; [exact H0 | apply Hall; lia]|].
      intros j Hj. apply Hall. lia.
Qed.

Lemma source_max (la lb : nat) :
  (if (lb <? la)%nat then la else lb) = Nat.max la lb.
Proof. destruct (Nat.ltb_spec lb la); lia. Qed.

Lemma get_content (p : string) (i : nat) :
  (i < CStr.strlen p)%nat -> String.get i (CStr.content p) = String.get i p.
Proof.
  revert i. induction p as [|c p IH]; intros i; simpl; [lia|].
  destruct (CStr.is_nul c); simpl; [lia|].
  destruct i as [|i]; [reflexivity|]. intros Hi. apply IH. lia.
Qed.

Lemma get_beyond (s : string) (i : nat) :
  (String.length s <= i)%nat -> String.get i s = None.
Proof.
  revert i. induction s as [|c s IH]; intros i; simpl; [reflexivity|].
  destruct i as [|i]; [lia|]. intros Hi. apply IH. lia.
Qed.

(** What an iteration fetches from an input is the byte of the input's
    content at that position, 0 past its end. *)
Lemma fetch_content (p : string) (i : nat) :
  fetch p (access (CStr.strlen p) i)
  = CStr.to_uchar (CStr.at_ (CStr.content p) i).
Proof.
  unfold access, CStr.at_. destruct (Nat.ltb_spec i (CStr.strlen p)) as [H|H];
    simpl.
  - unfold CStr.at_. now rewrite get_content.
  - rewrite get_beyond by (rewrite strlen_content; exact H). reflexivity.
Qed.

Lemma nul_free_ext (s t : string) :
  CStr.no_nul s -> CStr.no_nul t ->
  (forall j, (j < Nat.max (String.length s) (String.length t))%nat ->
             CStr.at_ s j = CStr.at_ t j) ->
  s = t.
Proof.
  unfold CStr.no_nul. revert t.
  induction s as [|c s IH]; intros [|d t] Hs Ht Hall; simpl in *.
  - reflexivity.
  - destruct (CStr.is_nul d) eqn:E; [discriminate|].
    apply is_nul_false in E. specialize (Hall O ltac:(lia)).
    unfold CStr.at_ in Hall. simpl in Hall. congruence.
  - destruct (CStr.is_nul c) eqn:E; [discriminate|].
    apply is_nul_false in E. specialize (Hall O ltac:(lia)).
    unfold CStr.at_ in Hall. simpl in Hall. congruence.
  - destruct (CStr.is_nul c); [discriminate|].
    destruct (CStr.is_nul d); [discriminate|].
    injection Hs as Hs. injection Ht as Ht.
    pose proof (Hall O ltac:(lia)) as H0. unfold CStr.at_ in H0. simpl in H0.
    subst d. f_equal. apply IH; try assumption.
    intros j Hj. apply (Hall (S j)). lia.
Qed.

(** The loop finds no difference exactly when the contents are equal. *)
Lemma compare_loop_zero (a b : string) :
  is_byte (result (compare_loop a b))
  /\ (result (compare_loop a b) = 0 <-> CStr.content a = CStr.content b).
Proof.
  unfold compare_loop. rewrite source_max.
  destruct (compare_loop_result a b (CStr.strlen a) (CStr.strlen b)
              (Nat.max (CStr.strlen a) (CStr.strlen b)) 0
              {| result := 0; reads := [] |}) as [Hb Hiff].
  { simpl. unfold is_byte. lia. }
  split; [exact Hb|]. rewrite Hiff. simpl. split.
  - intros [_ Hall]. apply nul_free_ext; try apply content_idem.
    rewrite !strlen_content. intros j Hj.
    apply to_uchar_inj. rewrite <- !fetch_content. apply Hall. lia.
  - intros Heq. split; [reflexivity|]. intros j _.
    rewrite !fetch_content, Heq. reflexivity.
Qed.

(** C1. Called with two string arguments, [native_constant_time_equal]
    returns the boolean true if and only if the two C strings have equal
    content (same length and same bytes). *)
Theorem native_constant_time_equal_correct (ctx : RayaContext)
    (a b : string) :
  (native_constant_time_equal ctx [VString a; VString b] = VBool true
   <-> CStr.content a = CStr.content b)
  /\ (native_constant_time_equal ctx [VString a; VString b] = VBool false
      <-> CStr.content a <> CStr.content b).
Proof.
  unfold native_constant_time_equal. enter_body. cbn [raya_value_to_string].
  destruct (compare_loop_zero a b) as [Hb Hiff].
  set (r := to_int _).
  assert (Hr : r = 0 <-> CStr.content a = CStr.content b).
  { unfold r. split.
    - intros Hz. apply Hiff. eapply to_int_lor_zero; eassumption.
    - intros Heq. apply Hiff in Heq as Hz. rewrite Hz.
      rewrite <- !strlen_content, Heq, Z.lxor_nilpotent. reflexivity. }
  unfold raya_value_from_bool, c_bool.
  destruct (Z.eqb_spec r 0) as [E|E]; simpl.
  - split; split; try tauto; discriminate.
  - split; split; try tauto; discriminate.
Qed.

(** ** constantTimeEqual: what the loop reads *)







(** ** readFile *)

(** C6. [native_read_file] returns nothing, whatever the file holds: the
    body with the test for the prefixes "Error" and "Failed" is the text
    given to [RAYA_FUNCTION], which drops it, so that fs.cpp is the same
    program for every such text and only declares [native_read_file]. *)
Theorem read_file_wrapper_is_only_declared (Impl : Type)
    (impl : string -> Impl) (ctx : RayaContext) (args : list RayaValue) :
  RAYA_FUNCTION "read_file" (impl "read_file") = Declared "native_read_file"
  /\ (forall (Impl' : Type) (impl' : string -> Impl'),
        fs_cpp impl' = fs_cpp impl)
  /\ body_of (fs_cpp impl) "native_read_file" = None
  /\ call_export (fs_cpp impl)
       {| export_name := "readFile"; export_symbol := "native_read_file";
          export_arity := 1 |} ctx args
     = None.
Proof. repeat split. Qed.

(** ** Validation of argument types *)

Lemma to_string_none (v : RayaValue) :
  raya_value_to_string v = None <-> type_of v <> TString.
Proof. destruct v; simpl; split; congruence. Qed.

Lemma from_raya_not_string (v : RayaValue) :
  type_of v <> TString -> TypeConverter_string_from_raya v = "".
Proof.
  intros H%to_string_none. unfold TypeConverter_string_from_raya.
  now rewrite H.
Qed.

Lemma to_i32_not_integer (v : RayaValue) :
  type_of v <> TI32 -> raya_value_to_i32 v = 0.
Proof. destruct v; simpl; congruence. Qed.

Lemma native_hash_first_not_string (ctx : RayaContext) (v w : RayaValue) :
  type_of v <> TString ->
  native_hash ctx [v; w] = VError "First argument must be a string".
Proof.
  intros H%to_string_none. unfold native_hash. enter_body. now rewrite H.
Qed.

Lemma native_hash_second_not_string (ctx : RayaContext) (v w : RayaValue) :
  type_of v = TString -> type_of w <> TString ->
  native_hash ctx [v; w] = VError "Second argument must be a string".
Proof.
  intros Hv H%to_string_none.
  destruct (raya_value_to_string v) as [algorithm|] eqn:Ev;
    [|apply to_string_none in Ev; contradiction].
  unfold native_hash. enter_body. rewrite Ev, H. reflexivity.
Qed.

Lemma native_constant_time_equal_not_string (ctx : RayaContext)
    (v w : RayaValue) :
  type_of v <> TString \/ type_of w <> TString ->
  native_constant_time_equal ctx [v; w]
  = VError "Both arguments must be strings".
Proof.
  unfold native_constant_time_equal. enter_body.
  intros [H%to_string_none | H%to_string_none]; rewrite H;
    [|destruct (raya_value_to_string v)]; reflexivity.
Qed.

Lemma native_random_bytes_not_integer (ctx : RayaContext) (v : RayaValue) :
  type_of v <> TI32 ->
  native_random_bytes ctx [v] = VError "Length must be between 1 and 1048576".
Proof.
  intros H. unfold native_random_bytes. enter_body.
  now rewrite to_i32_not_integer.
Qed.

(** ** Release of handles *)

Lemma release_null (k : HandleKind) (a : Allocator) : release k NULL a = a.
Proof. reflexivity. Qed.

Lemma release_not_live (k : HandleKind) (h : N) (a : Allocator) :
  alloc_live a !! h = None -> release k h a = a.
Proof. intros H. unfold release. rewrite H. now destruct (h =? NULL)%N. Qed.

Lemma release_cases (k : HandleKind) (h : N) (a : Allocator) :
  release k h a = a \/ alloc_live (release k h a) !! h = None.
Proof.
  unfold release. destruct (h =? NULL)%N; [now left|].
  destruct (alloc_live a !! h) as [k'|] eqn:Hl; [|now left].
  destruct (bool_decide (k' = k)); [|now left].
  right. simpl. apply lookup_delete_eq.
Qed.

Lemma release_twice (k : HandleKind) (h : N) (a : Allocator) :
  release k h (release k h a) = release k h a.
Proof.
  destruct (release_cases k h a) as [H|H].
  - now rewrite !H.
  - now apply release_not_live.
Qed.

Lemma release_wf (k : HandleKind) (h : N) (a : Allocator) :
  alloc_wf a -> alloc_wf (release k h a).
Proof.
  intros [Hnext Hlive]. unfold release.
  destruct (h =? NULL)%N; [now split|].
  destruct (alloc_live a !! h) as [k'|] eqn:Hl; [|now split].
  destruct (bool_decide (k' = k)); [|now split].
  split; [exact Hnext|]. simpl. intros h' k'' Hlook.
  apply lookup_delete_Some in Hlook as [_ Hlook]. eauto.
Qed.

Lemma allocate_wf (k : HandleKind) (a : Allocator) :
  alloc_wf a ->
  fst (allocate k a) <> NULL
  /\ alloc_live a !! fst (allocate k a) = None
  /\ alloc_wf (snd (allocate k a)).
Proof.
  intros [Hnext Hlive]. unfold allocate, NULL. simpl. split; [lia|]. split.
  - destruct (alloc_live a !! alloc_next a) as [k'|] eqn:E; [|reflexivity].
    apply Hlive in E. lia.
  - split; simpl; [lia|]. intros h k' Hlook.
    apply lookup_insert_Some in Hlook as [[<- _] | [_ Hlook]]; [lia|].
    apply Hlive in Hlook. lia.
Qed.

(** C8. Each release function of the C API, given NULL, leaves the
    allocator as it is; [raya_vm_destroy] on a handle that was already
    destroyed leaves it as the first call left it, and the allocator stays
    well formed. *)
Theorem release_null_or_destroyed_is_noop (a : Allocator) (vm : N) :
  alloc_wf a ->
  raya_value_free NULL a = a
  /\ raya_error_free NULL a = a
  /\ raya_snapshot_free NULL a = a
  /\ raya_vm_destroy NULL a = a
  /\ raya_vm_destroy vm (raya_vm_destroy vm a) = raya_vm_destroy vm a
  /\ alloc_wf (raya_vm_destroy vm (raya_vm_destroy vm a)).
Proof.
  intros Hwf. repeat (split; [apply release_null|]). split.
  - apply release_twice.
  - unfold raya_vm_destroy. now do 2 apply release_wf.
Qed.

Lemma release_null_or_destroyed_is_noop_witness :
  let a := snd (allocate KValue (snd (allocate KVM empty_allocator))) in
  let vm := fst (allocate KVM empty_allocator) in
  raya_value_free NULL a = a
  /\ raya_error_free NULL a = a
  /\ raya_snapshot_free NULL a = a
  /\ raya_vm_destroy NULL a = a
  /\ raya_vm_destroy vm (raya_vm_destroy vm a) = raya_vm_destroy vm a
  /\ alloc_wf (raya_vm_destroy vm (raya_vm_destroy vm a)).
Proof.
  intros a vm. apply (release_null_or_destroyed_is_noop a vm).
  unfold a. apply allocate_wf. apply allocate_wf.
  split; [reflexivity|]. intros h k H. simpl in H.
  rewrite lookup_empty in H. discriminate.
Defined.

(* ===================================================================== *)
(** * Further properties of the code *)

(** ** hash: the digest can be read back *)

Lemma hex_value_digit (d : Z) :
  0 <= d < 16 -> hex_value (hex_digit d) = Some d.
Proof.
  intros Hd.
  assert (H : In d [0; 1; 2; 3; 4; 5; 6; 7; 8; 9; 10; 11; 12; 13; 14; 15])
    by (simpl; lia).
  simpl in H.
  repeat (destruct H as [<- | H]; [reflexivity|]).
  contradiction.
Qed.

Lemma hex_decode_chars (l : list Z) :
  Forall (fun v => 0 <= v < 256) l -> hex_decode (hex_chars l) = Some l.
Proof.
  induction 1 as [|v l Hv _ IH]; [reflexivity|].
  change (hex_chars (v :: l))
    with (hex_digit (v / 16) :: hex_digit (v mod 16) :: hex_chars l).
  cbn [hex_decode].
  rewrite !hex_value_digit, IH.
  - do 2 f_equal. pose proof (Z.div_mod v 16). lia.
  - apply Z.mod_pos_bound. lia.
  - split; [apply Z.div_pos; lia | apply Z.div_lt_upper_bound; lia].
Qed.

Lemma native_hash_two_strings (ctx : RayaContext) (algorithm data : string) :
  native_hash ctx [VString algorithm; VString data]
  = if CStr.strcmp algorithm "sha256" =? 0 then
      raya_value_from_string ctx
        (hex_of_digest ctx
           (digest_buffer (env_SHA256 ctx (CStr.content data))
              SHA256_DIGEST_LENGTH) SHA256_DIGEST_LENGTH)
    else if CStr.strcmp algorithm "sha512" =? 0 then
      raya_value_from_string ctx
        (hex_of_digest ctx
           (digest_buffer (env_SHA512 ctx (CStr.content data))
              SHA512_DIGEST_LENGTH) SHA512_DIGEST_LENGTH)
    else
      raya_error_new ctx
        (("Unsupported hash algorithm: " +:+ CStr.content algorithm)
         +:+ " (supported: sha256, sha512)").
Proof. reflexivity. Qed.

Lemma strcmp_eqb (p q : string) :
  (CStr.strcmp p q =? 0) = bool_decide (CStr.content p = CStr.content q).
Proof.
  destruct (Z.eqb_spec (CStr.strcmp p q) 0) as [H|H].
  - apply strcmp_eq in H. now rewrite bool_decide_eq_true_2.
  - rewrite bool_decide_eq_false_2; [reflexivity|].
    intros Heq. now apply H, strcmp_eq.
Qed.

(** X1. The string returned for "sha256" ("sha512") is the hexadecimal writing
    of the 32 (64) digest bytes, high digit first: decoding it gives the
    digest of the data's content back, byte for byte. *)
Theorem native_hash_hex_round_trip (ctx : RayaContext)
    (algorithm data : string) :
  (CStr.content algorithm = "sha256" ->
   exists h,
     native_hash ctx [VString algorithm; VString data] = VString h
     /\ hex_decode (list_ascii_of_string h)
        = Some (map (fun i => env_SHA256 ctx (CStr.content data) i mod 256)
                  (seq 0 32)))
  /\ (CStr.content algorithm = "sha512" ->
      exists h,
        native_hash ctx [VString algorithm; VString data] = VString h
        /\ hex_decode (list_ascii_of_string h)
           = Some (map (fun i => env_SHA512 ctx (CStr.content data) i mod 256)
                     (seq 0 64))).
Proof.
  rewrite native_hash_two_strings, !strcmp_eqb.
  change (CStr.content "sha256") with "sha256".
  change (CStr.content "sha512") with "sha512".
  split; intros E; rewrite E.
  - rewrite bool_decide_eq_true_2 by reflexivity.
    eexists. split; [apply hex_of_digest_value|].
    rewrite list_ascii_of_string_of_list_ascii.
    apply hex_decode_chars, digest_buffer_bytes.
  - rewrite bool_decide_eq_false_2 by discriminate.
    rewrite bool_decide_eq_true_2 by reflexivity.
    eexists. split; [apply hex_of_digest_value|].
    rewrite list_ascii_of_string_of_list_ascii.
    apply hex_decode_chars, digest_buffer_bytes.
Qed.

Lemma native_hash_hex_round_trip_witness :
  exists h,
    native_hash sample_ctx [VString "sha512"; VString "abc"] = VString h
    /\ hex_decode (list_ascii_of_string h)
       = Some (map (fun i => env_SHA512 sample_ctx (CStr.content "abc") i
                             mod 256) (seq 0 64)).
Proof.
  apply (proj2 (native_hash_hex_round_trip sample_ctx "sha512" "abc")).
  reflexivity.
Defined.

(** X2. [native_hash] sees of each argument only the bytes before its first
    NUL: two calls whose arguments agree up to there return the same
    value. *)
Theorem native_hash_reads_c_strings (ctx : RayaContext)
    (algorithm algorithm' data data' : string) :
  CStr.content algorithm = CStr.content algorithm' ->
  CStr.content data = CStr.content data' ->
  native_hash ctx [VString algorithm; VString data]
  = native_hash ctx [VString algorithm'; VString data'].
Proof.
  intros Ha Hd. rewrite !native_hash_two_strings, !strcmp_eqb, Ha, Hd.
  reflexivity.
Qed.

Lemma native_hash_reads_c_strings_witness :
  native_hash sample_ctx
    [VString (String "m" (String "d" (String "5" (String CStr.NUL "x"))));
     VString (String "a" (String CStr.NUL "secret"))]
  = native_hash sample_ctx [VString "md5"; VString "a"].
Proof.
  apply native_hash_reads_c_strings; reflexivity.
Defined.

(** ** randomBytes: bytes *)

(** X4. Every element of the array returned by [native_random_bytes] is an
    integer value between 0 and 255. *)
Theorem native_random_bytes_elements (ctx : RayaContext) (len : Z)
    (elems : list RayaValue) :
  native_random_bytes ctx [VI32 len] = VArray elems ->
  Forall (fun v => exists b, v = VI32 b /\ 0 <= b < 256) elems.
Proof.
  unfold native_random_bytes. enter_body. cbn [raya_value_to_i32].
  destruct ((len <=? 0) || (len >? 1024 * 1024)); [discriminate|].
  rewrite random_bytes_array. intros [= <-].
  apply List.Forall_forall. intros v (i & <- & _)%in_map_iff.
  eexists. split; [reflexivity|]. unfold to_uint8.
  apply Z.mod_pos_bound. lia.
Qed.

Lemma native_random_bytes_elements_witness :
  Forall (fun v => exists b, v = VI32 b /\ 0 <= b < 256)
    [VI32 44; VI32 121; VI32 198].
Proof.
  apply (native_random_bytes_elements sample_ctx 3). reflexivity.
Defined.

(** ** constantTimeEqual: the answer and the length check *)

Lemma to_int_lor_iff (r x : Z) :
  is_byte r -> (r = 0 -> x = 0) ->
  (to_int (Z.lor r x) =? 0) = (r =? 0).
Proof.
  intros Hr Hx. destruct (Z.eqb_spec r 0) as [->|Hne].
  - rewrite Hx by reflexivity. reflexivity.
  - destruct (Z.eqb_spec (to_int (Z.lor r x)) 0) as [Hz|]; [|reflexivity].
    exfalso. apply Hne. eapply to_int_lor_zero; eassumption.
Qed.

Lemma constant_time_equal_by_loop (ctx : RayaContext) (a b : string) :
  native_constant_time_equal ctx [VString a; VString b]
  = raya_value_from_bool ctx (c_bool (result (compare_loop a b) =? 0)).
Proof.
  destruct (compare_loop_zero a b) as [Hb Hiff].
  unfold native_constant_time_equal. enter_body. cbn [raya_value_to_string].
  cbv zeta. rewrite to_int_lor_iff; [reflexivity | exact Hb |].
  intros Hz%Hiff. rewrite <- !strlen_content, Hz. apply Z.lxor_nilpotent.
Qed.

(** X5. The loop alone decides: [result] stays a byte, and the final
    [result |= (len_a ^ len_b)] never changes whether [result] is 0, since a
    difference in length already shows as a padding byte against a byte of
    the longer input. *)
Theorem length_check_is_redundant (ctx : RayaContext) (a b : string) :
  0 <= result (compare_loop a b) < 256
  /\ native_constant_time_equal ctx [VString a; VString b]
     = raya_value_from_bool ctx (c_bool (result (compare_loop a b) =? 0)).
Proof.
  split; [apply compare_loop_zero | apply constant_time_equal_by_loop].
Qed.

Lemma native_constant_time_equal_value (ctx : RayaContext) (a b : string) :
  native_constant_time_equal ctx [VString a; VString b]
  = VBool (bool_decide (CStr.content a = CStr.content b)).
Proof.
  rewrite constant_time_equal_by_loop.
  destruct (compare_loop_zero a b) as [_ Hiff].
  unfold raya_value_from_bool, c_bool.
  destruct (Z.eqb_spec (result (compare_loop a b)) 0) as [E|E]; simpl.
  - apply Hiff in E. now rewrite bool_decide_eq_true_2.
  - rewrite bool_decide_eq_false_2; [reflexivity|]. now rewrite <- Hiff.
Qed.

Lemma to_string_some (v : RayaValue) (s : string) :
  raya_value_to_string v = Some s -> v = VString s.
Proof. destruct v; simpl; congruence. Qed.

(** X6. The comparison does not depend on the order of its two arguments,
    whatever their runtime types. *)
Theorem native_constant_time_equal_sym (ctx : RayaContext) (v w : RayaValue) :
  native_constant_time_equal ctx [v; w]
  = native_constant_time_equal ctx [w; v].
Proof.
  destruct (raya_value_to_string v) as [a|] eqn:Ev;
    [destruct (raya_value_to_string w) as [b|] eqn:Ew|].
  - apply to_string_some in Ev, Ew. subst.
    rewrite !native_constant_time_equal_value. f_equal.
    apply bool_decide_ext. split; congruence.
  - apply to_string_none in Ew.
    rewrite !native_constant_time_equal_not_string by auto. reflexivity.
  - apply to_string_none in Ev.
    rewrite !native_constant_time_equal_not_string by auto. reflexivity.
Qed.

(** ** The type converters *)

Lemma from_raya_string (s : string) :
  TypeConverter_string_from_raya (VString s) = CStr.content s.
Proof. reflexivity. Qed.

(** X8. Through [to_raya] and back a [std::string] loses what follows its first
    NUL and nothing else; a value that is not a string reads as the empty
    string, so only NUL-free strings make the round trip in both
    directions. *)
Theorem string_converter_round_trip (ctx : RayaContext) (s : string)
    (v : RayaValue) :
  TypeConverter_string_from_raya (TypeConverter_string_to_raya ctx s)
  = CStr.content s
  /\ (CStr.no_nul s ->
      TypeConverter_string_from_raya (TypeConverter_string_to_raya ctx s) = s
      /\ TypeConverter_string_to_raya ctx
           (TypeConverter_string_from_raya (VString s)) = VString s)
  /\ (type_of v <> TString ->
      TypeConverter_string_to_raya ctx (TypeConverter_string_from_raya v)
      = VString "").
Proof.
  unfold TypeConverter_string_to_raya, raya_value_from_string.
  rewrite !from_raya_string, content_idem. split; [reflexivity|]. split.
  - unfold CStr.no_nul. intros H. now rewrite !H.
  - intros H. now rewrite from_raya_not_string.
Qed.

Lemma string_converter_round_trip_witness :
  TypeConverter_string_from_raya
    (TypeConverter_string_to_raya sample_ctx "/tmp/app.log") = "/tmp/app.log"
  /\ TypeConverter_string_to_raya sample_ctx
       (TypeConverter_string_from_raya (VString "/tmp/app.log"))
     = VString "/tmp/app.log".
Proof.
  apply (proj1 (proj2 (string_converter_round_trip sample_ctx "/tmp/app.log"
                         VNull))).
  reflexivity.
Defined.

(** X9. A [bool] and an [int32_t] come back unchanged from [to_raya] followed by
    [from_raya]; in the other direction a boolean or integer value comes
    back unchanged, and any other value becomes false, respectively 0. *)
Theorem scalar_converters_round_trip (ctx : RayaContext) (b : bool) (n : Z)
    (v : RayaValue) :
  TypeConverter_bool_from_raya (TypeConverter_bool_to_raya ctx b) = b
  /\ TypeConverter_int32_from_raya (TypeConverter_int32_to_raya ctx n) = n
  /\ TypeConverter_bool_to_raya ctx (TypeConverter_bool_from_raya v)
     = (if bool_decide (type_of v = TBool) then v else VBool false)
  /\ TypeConverter_int32_to_raya ctx (TypeConverter_int32_from_raya v)
     = (if bool_decide (type_of v = TI32) then v else VI32 0).
Proof.
  split; [now destruct b|]. split; [reflexivity|]. split.
  - destruct v as [| [|] | | | | |]; reflexivity.
  - destruct v; reflexivity.
Qed.

(** ** hello.c *)

Ltac run_main :=
  unfold Hello.main, Hello.load_and_run;
  repeat first
    [ progress cbn [fst snd app]
    | match goal with
      | |- context [match ?x with (_, _) => _ end] =>
        lazymatch x with
        | (_, _) => fail
        | _ => destruct x as [? ?] eqn:?
        end
      | |- context [if ?b then _ else _] =>
        lazymatch b with
        | true => fail
        | false => fail
        | _ => destruct b eqn:?
        end
      end ].

Ltac reflect_tests :=
  unfold NULL in *;
  repeat match goal with
         | H : (_ =? _)%N = true |- _ => apply N.eqb_eq in H
         | H : (_ =? _)%N = false |- _ => apply N.eqb_neq in H
         | H : (_ <? _)%nat = true |- _ => apply Nat.ltb_lt in H
         | H : (_ <? _)%nat = false |- _ => apply Nat.ltb_ge in H
         | H : negb _ = true |- _ => apply negb_true_iff in H
         | H : negb _ = false |- _ => apply negb_false_iff in H
         | H : (_ =? _) = true |- _ => apply Z.eqb_eq in H
         | H : (_ =? _) = false |- _ => apply Z.eqb_neq in H
         end.

(** X18. [main] exits with 0 or 1, and with 0 exactly when the VM was created
    and, if a file was named on the command line, loading it and running
    "main" both returned 0; the outcome of the snapshot does not count. *)
Theorem main_exit_code (argv : list string) (lib : Hello.Library) :
  let vm := fst (Hello.lib_vm_new lib) in
  let loaded := fst (Hello.lib_load_file lib vm (nth 1 argv "")) in
  let ran := fst (Hello.lib_run_entry lib vm "main") in
  (fst (Hello.main argv lib) = 0 \/ fst (Hello.main argv lib) = 1)
  /\ (fst (Hello.main argv lib) = 0
      <-> vm <> NULL
          /\ ((length argv <= 1)%nat \/ (loaded = 0 /\ ran = 0))).
Proof.
  cbv zeta. run_main; reflect_tests; lia.
Qed.

(** X19. When the VM was created, [raya_vm_destroy] is the last call [main]
    makes and the only destroy, on every path, and every call that takes a
    VM takes this one; when it was not, no call is given a VM. *)
Theorem main_destroys_vm_last (argv : list string) (lib : Hello.Library) :
  let vm := fst (Hello.lib_vm_new lib) in
  let calls := snd (Hello.main argv lib) in
  (vm = NULL ->
   Forall (fun c => Hello.takes_vm c = None) calls)
  /\ (vm <> NULL ->
      last calls = Some (Hello.CVmDestroy vm)
      /\ Hello.count_calls Hello.is_destroy calls = 1%nat
      /\ Forall (fun c => Hello.takes_vm c = None
                          \/ Hello.takes_vm c = Some vm) calls).
Proof.
  cbv zeta. run_main; reflect_tests;
    (split; intros Hvm; [try (exfalso; lia) | try (exfalso; lia)]);
    repeat split;
    repeat match goal with
           | |- Forall _ [] => constructor
           | |- Forall _ (_ :: _) =>
             constructor;
             [first [reflexivity | left; reflexivity | right; reflexivity]|]
           end.
Qed.

Lemma main_destroys_vm_last_witness :
  last (snd (Hello.main ["hello"; "broken.rbin"] Hello.sample_library))
  = Some (Hello.CVmDestroy 16)
  /\ Hello.count_calls Hello.is_destroy
       (snd (Hello.main ["hello"; "broken.rbin"] Hello.sample_library))
     = 1%nat
  /\ Forall (fun c => Hello.takes_vm c = None
                      \/ Hello.takes_vm c = Some 16%N)
       (snd (Hello.main ["hello"; "broken.rbin"] Hello.sample_library)).
Proof.
  apply (proj2 (main_destroys_vm_last ["hello"; "broken.rbin"]
                  Hello.sample_library)).
  discriminate.
Defined.

(** X20. [main] frees an error at most once per run, right after reading its
    message and never before: once when it exits with 1, once when the
    snapshot fails, and not at all otherwise. *)
Theorem main_frees_error_once (argv : list string) (lib : Hello.Library) :
  let vm := fst (Hello.lib_vm_new lib) in
  let calls := snd (Hello.main argv lib) in
  Hello.frees_after_message calls = true
  /\ (Hello.count_calls Hello.is_error_free calls <= 1)%nat
  /\ (Hello.count_calls Hello.is_error_free calls = 1%nat
      <-> fst (Hello.main argv lib) = 1
          \/ fst (Hello.lib_snapshot lib vm) = NULL).
Proof.
  cbv zeta. run_main;
    unfold Hello.count_calls; cbn; rewrite ?N.eqb_refl;
    reflect_tests; (split; [reflexivity|]); split; lia.
Qed.

(** X21. On a run that exits with 0 [main] creates three values and frees these
    three, in the order it created them, and frees the snapshot if it got
    one; on a run that exits with 1 it creates and frees none. *)
Theorem main_releases_what_it_creates (argv : list string)
    (lib : Hello.Library) :
  let vm := fst (Hello.lib_vm_new lib) in
  let snapshot := fst (Hello.lib_snapshot lib vm) in
  let calls := snd (Hello.main argv lib) in
  (fst (Hello.main argv lib) = 0 ->
   Hello.count_calls Hello.creates_value calls = 3%nat
   /\ Hello.freed_values calls
      = [Hello.lib_value_null lib; Hello.lib_value_bool lib 1;
         Hello.lib_value_i32 lib 42]
   /\ Hello.freed_snapshots calls
      = (if (snapshot =? NULL)%N then [] else [snapshot]))
  /\ (fst (Hello.main argv lib) = 1 ->
      Hello.count_calls Hello.creates_value calls = 0%nat
      /\ Hello.freed_values calls = []
      /\ Hello.freed_snapshots calls = []).
Proof.
  cbv zeta. run_main;
    (split; intros Hexit; [try discriminate Hexit | try discriminate Hexit]);
    repeat split.
Qed.

Lemma main_releases_what_it_creates_witness :
  Hello.count_calls Hello.creates_value
    (snd (Hello.main ["hello"; "app.rbin"] Hello.sample_library)) = 3%nat
  /\ Hello.freed_values
       (snd (Hello.main ["hello"; "app.rbin"] Hello.sample_library))
     = [48%N; 64%N; 80%N]
  /\ Hello.freed_snapshots
       (snd (Hello.main ["hello"; "app.rbin"] Hello.sample_library))
     = [].
Proof.
  apply (proj1 (main_releases_what_it_creates ["hello"; "app.rbin"]
                  Hello.sample_library)).
  reflexivity.
Defined.

(** ** hash: nothing of the stack gets out *)

Lemma native_hash_not_two_strings (ctx ctx' : RayaContext)
    (args : list RayaValue) :
  (forall algorithm data, args <> [VString algorithm; VString data]) ->
  native_hash ctx args = native_hash ctx' args.
Proof.
  intros Hne. unfold native_hash, argc.
  destruct (Nat.eqb_spec (length args) 2) as [Hlen|Hlen]; [|reflexivity].
  apply args_two in Hlen as (v & w & ->). enter_body.
  destruct (raya_value_to_string v) as [a|] eqn:Ev; [|reflexivity].
  destruct (raya_value_to_string w) as [b|] eqn:Ew; [|reflexivity].
  apply to_string_some in Ev, Ew. subst. now destruct (Hne a b).
Qed.

(** X3. The value [native_hash] returns is fixed by its arguments and the two
    digest functions: the uninitialised [hex] buffer is overwritten up to
    its terminator before it is read, so no byte left on the stack (and
    nothing else of the environment) shows in the result. *)
Theorem native_hash_leaks_no_stack (ctx ctx' : RayaContext)
    (args : list RayaValue) :
  env_SHA256 ctx = env_SHA256 ctx' ->
  env_SHA512 ctx = env_SHA512 ctx' ->
  native_hash ctx args = native_hash ctx' args.
Proof.
  intros H256 H512.
  destruct args as [|[| | |algorithm| | |] [|[| | |data| | |] [|x args]]];
    try (apply native_hash_not_two_strings; intros ? ?; discriminate).
  rewrite !native_hash_two_strings.
  destruct (CStr.strcmp algorithm "sha256" =? 0);
    [|destruct (CStr.strcmp algorithm "sha512" =? 0)].
  - rewrite (proj1 (hex_of_digest_value ctx _ _)),
      (proj1 (hex_of_digest_value ctx' _ _)), H256. reflexivity.
  - rewrite (proj1 (hex_of_digest_value ctx _ _)),
      (proj1 (hex_of_digest_value ctx' _ _)), H512. reflexivity.
  - reflexivity.
Qed.

Lemma native_hash_leaks_no_stack_witness :
  native_hash sample_ctx [VString "sha256"; VString "hello world"]
  = native_hash dirty_stack_ctx [VString "sha256"; VString "hello world"].
Proof.
  apply native_hash_leaks_no_stack; reflexivity.
Defined.

(** ** Validation of argument types in crypto.cpp *)

Lemma mismatched_strings (args : list RayaValue) :
  mismatched [TString; TString] args = true ->
  exists v w, args = [v; w]
              /\ (type_of v <> TString \/ type_of w <> TString).
Proof.
  unfold mismatched. intros [Hlen Hex]%andb_true_iff.
  apply Nat.eqb_eq, args_two in Hlen as (v & w & ->).
  exists v, w. split; [reflexivity|]. simpl in Hex.
  destruct (decide (type_of v = TString)) as [Hv|Hv]; [|now left].
  destruct (decide (type_of w = TString)) as [Hw|Hw]; [|now right].
  rewrite !bool_decide_eq_true_2 in Hex by assumption. discriminate.
Qed.

Lemma matching_strings (args : list RayaValue) :
  length args = 2%nat -> mismatched [TString; TString] args = false ->
  exists a d, args = [VString a; VString d].
Proof.
  intros (v & w & ->)%args_two. unfold mismatched. simpl.
  destruct v, w; simpl; try discriminate. intros _. eauto.
Qed.

Lemma native_hash_validates : validates_types native_hash [TString; TString].
Proof.
  intros ctx args (v & w & -> & Hvw)%mismatched_strings.
  assert (Herr : native_hash ctx [v; w]
                 = VError "First argument must be a string"
                 \/ native_hash ctx [v; w]
                    = VError "Second argument must be a string").
  { destruct (decide (type_of v = TString)) as [Hv|Hv].
    - right. apply native_hash_second_not_string; tauto.
    - left. now apply native_hash_first_not_string. }
  split; [destruct Herr as [-> | ->]; reflexivity|].
  intros args' Hlen (a & d & ->)%matching_strings; [|exact Hlen].
  rewrite native_hash_two_strings.
  pose proof (unsupported_message ctx a) as Hmsg. cbv zeta in Hmsg.
  rewrite Hmsg.
  destruct (CStr.strcmp a "sha256" =? 0);
    [|destruct (CStr.strcmp a "sha512" =? 0)];
    destruct Herr as [-> | ->]; discriminate.
Qed.

Lemma native_constant_time_equal_validates :
  validates_types native_constant_time_equal [TString; TString].
Proof.
  intros ctx args (v & w & -> & Hvw)%mismatched_strings.
  rewrite (native_constant_time_equal_not_string ctx v w Hvw).
  split; [reflexivity|].
  intros args' Hlen (a & d & ->)%matching_strings; [|exact Hlen].
  rewrite native_constant_time_equal_value. discriminate.
Qed.

(** C5 as stated fails in crypto.cpp itself: [native_random_bytes] does not
    validate the type of its argument.  A string argument is read as the
    sentinel 0 and answered exactly as the integer 0 is. *)
Lemma random_bytes_trusts_the_sentinel :
  ~ (forall (e : Export) (params : list ValueType) (f : RayaNativeFunction),
        In e (module_functions raya_module_init_crypto) ->
        In (export_name e, params) signatures ->
        body_of crypto_cpp (export_symbol e) = Some f ->
        validates_types f params).
Proof.
  intros H.
  specialize (H {| export_name := "randomBytes";
                   export_symbol := "native_random_bytes";
                   export_arity := 1 |} [TI32] native_random_bytes).
  assert (Hv : validates_types native_random_bytes [TI32]).
  { apply H.
    - rewrite crypto_exports. simpl. tauto.
    - simpl. tauto.
    - reflexivity. }
  destruct (Hv sample_ctx [VString "16"] eq_refl) as [_ Hne].
  apply (Hne [VI32 0]); reflexivity.
Qed.

(** C5, as crypto.cpp has it.  [native_hash] and
    [native_constant_time_equal] validate the type of each string argument
    before using it: a call with an argument that is not a string gets an
    error that reports it, and that no call with two strings gets.
    [native_random_bytes] does not: an argument that is not an integer is
    read as the sentinel 0 and gets the range error of the length 0. *)
Theorem crypto_type_validation :
  validates_types native_hash [TString; TString]
  /\ validates_types native_constant_time_equal [TString; TString]
  /\ (forall (ctx : RayaContext) (v w : RayaValue),
        (type_of v <> TString ->
         native_hash ctx [v; w] = VError "First argument must be a string")
        /\ (type_of v = TString -> type_of w <> TString ->
            native_hash ctx [v; w]
            = VError "Second argument must be a string")
        /\ (type_of v <> TString \/ type_of w <> TString ->
            native_constant_time_equal ctx [v; w]
            = VError "Both arguments must be strings")
        /\ (type_of v <> TI32 ->
            native_random_bytes ctx [v] = native_random_bytes ctx [VI32 0]
            /\ native_random_bytes ctx [v]
               = VError "Length must be between 1 and 1048576")).
Proof.
  split; [apply native_hash_validates|].
  split; [apply native_constant_time_equal_validates|].
  intros ctx v w. split; [|split; [|split]].
  - apply native_hash_first_not_string.
  - apply native_hash_second_not_string.
  - apply native_constant_time_equal_not_string.
  - intros Hv. rewrite (native_random_bytes_not_integer ctx v Hv).
    split; reflexivity.
Qed.

Lemma crypto_type_validation_witness :
  is_error (native_hash sample_ctx [VI32 7; VString "hello"]) = true
  /\ forall args' : list RayaValue,
       length args' = 2%nat ->
       mismatched [TString; TString] args' = false ->
       native_hash sample_ctx [VI32 7; VString "hello"]
       <> native_hash sample_ctx args'.
Proof.
  apply (proj1 crypto_type_validation sample_ctx [VI32 7; VString "hello"]).
  reflexivity.
Defined.
